(** * Pixverse lip-sync client: a shallow embedding of [src/client.ts]

    The development follows the TypeScript class [PixverseClient]:
    - [NodeCrypto] models the one primitive the client takes from Node's
      [crypto] module for signing, [createHmac('sha1', key).update(s)
      .digest('base64')], on byte strings;
    - [Js] holds the string and object helpers the client calls
      ([includes], [split], [pop], [toLowerCase], [localeCompare],
      [Object.entries], [sort], [join], template-literal rendering of numbers);
    - [Client] is the class itself, written in a small state-and-exception
      monad over a [World] that records every [fetch], [setTimeout] and
      [console.log] and scripts what the network, the random source and the
      clock answer. *)

From Stdlib Require Import ZArith QArith Ascii String List Lia DecimalString.
From stdpp Require Import base option gmap strings list fin_maps.

Local Open Scope Z_scope.

(** ** HMAC-SHA1 with base64 output, as Node's [crypto] computes it *)
Module NodeCrypto.

(** A byte is a [Z] in [0, 256); a word is a [Z] in [0, 2^32). *)
Definition bytes_of_string (s : string) : list Z :=
  map (fun c => Z.of_N (N_of_ascii c)) (list_ascii_of_string s).

Definition w32 (x : Z) : Z := x mod 2 ^ 32.

Definition rotl (n x : Z) : Z :=
  w32 (Z.lor (Z.shiftl x n) (Z.shiftr x (32 - n))).

Definition not32 (x : Z) : Z := Z.lxor x 4294967295.

(** Big-endian packing of bytes into a number, and back. *)
Definition be_pack (bs : list Z) : Z :=
  fold_left (fun acc b => acc * 256 + b) bs 0.

Fixpoint be_unpack (n : nat) (x : Z) : list Z :=
  match n with
  | O => []
  | S n' => be_unpack n' (x / 256) ++ [x mod 256]
  end.

(** [chunks n k l] cuts [l] into at most [k] pieces of [n] elements. *)
Fixpoint chunks {A} (n : nat) (k : nat) (l : list A) : list (list A) :=
  match k with
  | O => []
  | S k' =>
      match l with
      | [] => []
      | _ => firstn n l :: chunks n k' (skipn n l)
      end
  end.

(** Message padding: a 1 bit, zeros up to 56 mod 64, the bit length on
    eight bytes. *)
Definition sha1_pad (msg : list Z) : list Z :=
  let len := Z.of_nat (length msg) in
  let zeros := Z.to_nat ((55 - len) mod 64) in
  msg ++ [128] ++ repeat 0 zeros ++ be_unpack 8 (len * 8).

(** The message schedule, kept most-recent-first while it is extended. *)
Fixpoint sha1_extend (n : nat) (rev_ws : list Z) : list Z :=
  match n with
  | O => rev_ws
  | S n' =>
      let w :=
        rotl 1 (Z.lxor (Z.lxor (nth 2 rev_ws 0) (nth 7 rev_ws 0))
                       (Z.lxor (nth 13 rev_ws 0) (nth 15 rev_ws 0))) in
      sha1_extend n' (w :: rev_ws)
  end.

Definition sha1_schedule (block : list Z) : list Z :=
  rev (sha1_extend 64 (rev (map be_pack (chunks 4 16 block)))).

Definition sha1_f (t : nat) (b c d : Z) : Z :=
  if (t <? 20)%nat then Z.lor (Z.land b c) (Z.land (not32 b) d)
  else if (t <? 40)%nat then Z.lxor (Z.lxor b c) d
  else if (t <? 60)%nat then
    Z.lor (Z.lor (Z.land b c) (Z.land b d)) (Z.land c d)
  else Z.lxor (Z.lxor b c) d.

Definition sha1_k (t : nat) : Z :=
  if (t <? 20)%nat then 1518500249
  else if (t <? 40)%nat then 1859775393
  else if (t <? 60)%nat then 2400959708
  else 3395469782.

Definition sha1_state : Type := Z * Z * Z * Z * Z.

Definition sha1_round (st : sha1_state) (tw : nat * Z) : sha1_state :=
  let '(a, b, c, d, e) := st in
  let '(t, w) := tw in
  let temp := w32 (rotl 5 a + sha1_f t b c d + e + sha1_k t + w) in
  (temp, a, rotl 30 b, c, d).

Definition sha1_block (h : sha1_state) (block : list Z) : sha1_state :=
  let ws := sha1_schedule block in
  let '(a, b, c, d, e) :=
    fold_left sha1_round (combine (seq 0 80) ws) h in
  let '(h0, h1, h2, h3, h4) := h in
  (w32 (h0 + a), w32 (h1 + b), w32 (h2 + c), w32 (h3 + d), w32 (h4 + e)).

Definition sha1_init : sha1_state :=
  (1732584193, 4023233417, 2562383102, 271733878, 3285377520).

Definition sha1 (msg : list Z) : list Z :=
  let padded := sha1_pad msg in
  let blocks := chunks 64 (length padded) padded in
  let '(h0, h1, h2, h3, h4) := fold_left sha1_block blocks sha1_init in
  be_unpack 4 h0 ++ be_unpack 4 h1 ++ be_unpack 4 h2
    ++ be_unpack 4 h3 ++ be_unpack 4 h4.

(** HMAC (RFC 2104) with SHA-1: 64-byte blocks, a longer key is hashed. *)
Definition hmac_key (key : list Z) : list Z :=
  let k := if (64 <? length key)%nat then sha1 key else key in
  k ++ repeat 0 (64 - length k)%nat.

Definition hmac_sha1 (key msg : list Z) : list Z :=
  let k := hmac_key key in
  let ipad := map (Z.lxor 54) k in
  let opad := map (Z.lxor 92) k in
  sha1 (opad ++ sha1 (ipad ++ msg)).

(** Base64 with the standard alphabet and [=] padding. *)
Definition base64_alphabet : string :=
  "ABCDEFGHIJKLMNOPQRSTUVWXYZabcdefghijklmnopqrstuvwxyz0123456789+/".

Definition base64_char (i : Z) : ascii :=
  match String.get (Z.to_nat i) base64_alphabet with
  | Some c => c
  | None => "="%char
  end.

Definition base64_group (g : list Z) : string :=
  match g with
  | [a; b; c] =>
      let n := be_pack [a; b; c] in
      String (base64_char (n / 262144))
        (String (base64_char ((n / 4096) mod 64))
           (String (base64_char ((n / 64) mod 64))
              (String (base64_char (n mod 64)) EmptyString)))
  | [a; b] =>
      let n := be_pack [a; b; 0] in
      String (base64_char (n / 262144))
        (String (base64_char ((n / 4096) mod 64))
           (String (base64_char ((n / 64) mod 64)) "="))
  | [a] =>
      let n := be_pack [a; 0; 0] in
      String (base64_char (n / 262144))
        (String (base64_char ((n / 4096) mod 64)) "==")
  | _ => ""
  end.

Definition base64 (bs : list Z) : string :=
  fold_right (fun g acc => base64_group g +:+ acc) ""
    (chunks 3 (length bs) bs).

(** [crypto.createHmac('sha1', key).update(data).digest('base64')] *)
Definition createHmac_sha1_base64 (key data : string) : string :=
  base64 (hmac_sha1 (bytes_of_string key) (bytes_of_string data)).

End NodeCrypto.

(** ** The JavaScript helpers the client calls *)
Module Js.

(** The line feed, written ['\n'] in the source. *)
Definition LF : string := String (ascii_of_nat 10) EmptyString.

(** [s.includes(c)], for the one-character needles the client passes. *)
Fixpoint includes (s : string) (c : ascii) : bool :=
  match s with
  | EmptyString => false
  | String a s' => if Ascii.eqb a c then true else includes s' c
  end.

(** [s.split(c)], for a one-character separator: never an empty array. *)
Fixpoint split (s : string) (c : ascii) : list string :=
  match s with
  | EmptyString => [EmptyString]
  | String a s' =>
      if Ascii.eqb a c then EmptyString :: split s' c
      else
        match split s' c with
        | piece :: rest => String a piece :: rest
        | [] => [String a EmptyString]
        end
  end.

(** [arr.pop()]: the last element, [undefined] on an empty array. *)
Definition pop (arr : list string) : option string := last arr.

(** A value interpolated in a template literal; [undefined] prints as
    such. *)
Definition interpolate (v : option string) : string :=
  default "undefined" v.

Definition toLowerCase_char (a : ascii) : ascii :=
  let n := nat_of_ascii a in
  if ((65 <=? n) && (n <=? 90))%nat then ascii_of_nat (n + 32) else a.

(** [s.toLowerCase()] on the ASCII range. *)
Fixpoint toLowerCase (s : string) : string :=
  match s with
  | EmptyString => EmptyString
  | String a s' => String (toLowerCase_char a) (toLowerCase s')
  end.

(** [a.localeCompare(b)]: negative, zero or positive. Modelled by the
    order of code units, with which the host's collation agrees on the
    strings compared in this client (lower-case ASCII header names that
    first differ at a letter). *)
Definition localeCompare (a b : string) : Z :=
  match String.compare a b with
  | Lt => -1
  | Eq => 0
  | Gt => 1
  end.

(** [arr.sort(cmp)]: a stable sort, here by insertion. *)
Fixpoint sort_insert {A} (cmp : A -> A -> Z) (x : A) (l : list A) : list A :=
  match l with
  | [] => [x]
  | y :: l' => if cmp x y <=? 0 then x :: l else y :: sort_insert cmp x l'
  end.

Definition sort {A} (cmp : A -> A -> Z) (arr : list A) : list A :=
  fold_right (sort_insert cmp) [] arr.

(** [arr.join(sep)] *)
Definition join (sep : string) (arr : list string) : string :=
  String.concat sep arr.

(** A number interpolated in a template literal. Status codes and error
    codes are taken to be integers of the size such codes have, below
    10^21 in magnitude, which print in plain decimal. *)
Definition Number_toString (n : Z) : string :=
  NilZero.string_of_int (Z.to_int n).

(** [Object.entries(o)] of an object literal, given as its properties in
    the order they are written. *)
Definition Object_entries {A} (o : list (string * A)) : list (string * A) := o.

(** [!v] on a string that may be [undefined]: true when absent or empty. *)
Definition not_string (v : option string) : bool :=
  match v with
  | None => true
  | Some s => if String.eqb s "" then true else false
  end.

(** A JavaScript number: a finite value, kept as a rational, or one of the
    three values that are not finite. *)
Inductive number :=
| Finite (q : Q)
| NaN
| PosInfinity
| NegInfinity.

(** [v <= 0] on a number that may be [undefined]: [undefined] converts to
    NaN, and every comparison with NaN is false. *)
Definition le_zero (v : option number) : bool :=
  match v with
  | Some (Finite q) => Qle_bool q 0
  | Some NegInfinity => true
  | _ => false
  end.

(** [!v] on a number that may be [undefined]: true when absent, 0 or NaN. *)
Definition not_number (v : option number) : bool :=
  match v with
  | None => true
  | Some (Finite q) => Qeq_bool q 0
  | Some NaN => true
  | Some _ => false
  end.

(** [a || b] on strings: [b] when [a] is empty. *)
Definition or_string (a b : string) : string :=
  if String.eqb a "" then b else a.

(** [sub] occurs in [s]. *)
Definition occurs_in (sub s : string) : Prop :=
  exists pre post, s = pre +:+ sub +:+ post.

End Js.

(** ** The interfaces of [types.ts]

    Interface fields keep their names; each interface with a field name
    that another one also has lives in a module of its own. Fields the
    callers may leave out at run time ([undefined]) are options. Payload
    interfaces ([MediaUploadResponse], [VideoDetailsResponse]) are only
    ever the erased type argument of [PixverseResponse]. *)

Module PixverseConfig.
Record t := { headers : option (gmap string string); token : option string }.
End PixverseConfig.

Record PixverseResponse (T : Type) := {
  ErrCode : Z;
  ErrMsg : string;
  Resp : T;
}.
Arguments ErrCode {T} _.
Arguments ErrMsg {T} _.
Arguments Resp {T} _.

Record UploadTokenResponse := { Ak : string; Sk : string; Token : string }.

Module MediaUploadRequest.
Record t := { name : string; path : string; type : Z }.
End MediaUploadRequest.

Module OSSUploadResponse.
Record t := { name : string; path : string; type : Z }.
End OSSUploadResponse.

Module LipSyncRequest.
Record t := {
  customer_video_path : option string;
  lip_sync_tts_content : option string;
  lip_sync_tts_speaker_id : string;
  model : string;
  customer_video_url : string;
  customer_video_duration : option Js.number;
  customer_video_last_frame_url : string;
  credit_change : Z;
}.
End LipSyncRequest.

Module LastVideoFrameRequest.
Record t := { video_path : option string; duration : option Js.number }.
End LastVideoFrameRequest.

Module VideoDetailsRequest.
Record t := { video_id : option Js.number; platform : option string }.
End VideoDetailsRequest.

(** The browser's [File]: its declared content type and its bytes. *)
Module File.
Record t := { type : string; content : string }.
End File.

(** ** What the client exchanges with its host *)

Inductive JsError :=
| Error (message : string)
| TypeError (message : string)
| SyntaxError (message : string).

(** The argument of [JSON.stringify]; the text it yields is kept symbolic. *)
Inductive Serializable :=
| OfMediaUploadRequest (r : MediaUploadRequest.t)
| OfLipSyncRequest (r : LipSyncRequest.t)
| OfLastVideoFrameRequest (r : LastVideoFrameRequest.t)
| OfVideoDetailsRequest (r : VideoDetailsRequest.t).

Inductive BodyInit :=
| JSON_stringify (v : Serializable)
| FileBody (f : File.t).

Module RequestInit.
Record t := {
  method : option string;
  headers : option (gmap string string);
  body : option BodyInit;
  credentials : option string;
  mode : option string;
}.
(** [{}], the default of [request]'s [options]. *)
Definition empty : t :=
  {| method := None; headers := None; body := None;
     credentials := None; mode := None |}.
End RequestInit.

Module Response.
Record t (T : Type) := {
  status : Z;
  statusText : string;
  text : JsError + string;
  json : JsError + PixverseResponse T;
}.
Arguments status {T} _.
Arguments statusText {T} _.
Arguments text {T} _.
Arguments json {T} _.
(** [response.ok]: the status is in the range 200-299. *)
Definition ok {T} (r : t T) : bool := (200 <=? status r) && (status r <=? 299).
End Response.

Inductive Event :=
| Fetch (url : string) (init : RequestInit.t)
| SetTimeout (ms : Z)
| ConsoleLog (args : list string).

Inductive Completion (A : Type) :=
| Return (a : A)
| Throw (e : JsError).
Arguments Return {A} a.
Arguments Throw {A} e.

(** A promise that has settled. *)
Inductive Promise (A : Type) :=
| Fulfilled (a : A)
| Rejected (e : JsError).
Arguments Fulfilled {A} a.
Arguments Rejected {A} e.

(** ** The client *)
Section Client.

(** The run-time representation of decoded payloads: TypeScript erases the
    type argument of [request<T>]. *)
Context {T : Type}.

(** The host: what the [n]-th [fetch], the [n]-th [crypto.randomUUID()]
    and the [n]-th [new Date().toUTCString()] answer, how many of each
    have happened, and everything the client did that can be seen from
    outside, oldest first. *)
Record World := {
  network : nat -> JsError + Response.t T;
  randomUUIDs : nat -> string;
  clock : nat -> string;
  fetched : nat;
  drawn : nat;
  read : nat;
  trace : list Event;
}.

(** Computations that read and change the world and may throw. An
    [await] is sequencing: the client has a single flow of control. *)
Definition M (A : Type) : Type := World -> Completion A * World.

#[global] Instance M_ret : MRet M := fun A a w => (Return a, w).

#[global] Instance M_bind : MBind M := fun A B k m w =>
  match m w with
  | (Return a, w') => k a w'
  | (Throw e, w') => (Throw e, w')
  end.

Definition throw {A} (e : JsError) : M A := fun w => (Throw e, w).

(** [try { body } catch (error) { handler }] *)
Definition try_catch {A} (body : M A) (handler : JsError -> M A) : M A :=
  fun w =>
    match body w with
    | (Return a, w') => (Return a, w')
    | (Throw e, w') => handler e w'
    end.

(** The call of an [async] function with the given body. The methods of
    the class are all [async]; their definitions below are their bodies,
    which is what a caller that awaits the call observes. The call itself
    never throws: it completes with a promise, rejected with what the body
    throws. *)
Definition async {A} (body : M A) : M (Promise A) :=
  fun w =>
    match body w with
    | (Return a, w') => (Return (Fulfilled a), w')
    | (Throw e, w') => (Return (Rejected e), w')
    end.

(** [await p] *)
Definition await {A} (p : Promise A) : M A :=
  match p with
  | Fulfilled a => mret a
  | Rejected e => throw e
  end.

Definition emit (e : Event) (w : World) : World :=
  {| network := network w; randomUUIDs := randomUUIDs w; clock := clock w;
     fetched := fetched w; drawn := drawn w; read := read w;
     trace := trace w ++ [e] |}.

(** [await fetch(url, init)] *)
Definition fetch (url : string) (init : RequestInit.t) : M (Response.t T) :=
  fun w =>
    let w' :=
      {| network := network w; randomUUIDs := randomUUIDs w;
         clock := clock w; fetched := S (fetched w); drawn := drawn w;
         read := read w; trace := trace w ++ [Fetch url init] |} in
    match network w (fetched w) with
    | inl e => (Throw e, w')
    | inr response => (Return response, w')
    end.

(** [crypto.randomUUID()] *)
Definition crypto_randomUUID : M string :=
  fun w =>
    (Return (randomUUIDs w (drawn w)),
     {| network := network w; randomUUIDs := randomUUIDs w;
        clock := clock w; fetched := fetched w; drawn := S (drawn w);
        read := read w; trace := trace w |}).

(** [new Date().toUTCString()] *)
Definition Date_toUTCString : M string :=
  fun w =>
    (Return (clock w (read w)),
     {| network := network w; randomUUIDs := randomUUIDs w;
        clock := clock w; fetched := fetched w; drawn := drawn w;
        read := S (read w); trace := trace w |}).

(** [await new Promise((resolve) => setTimeout(resolve, ms))] *)
Definition setTimeout (ms : Z) : M unit :=
  fun w => (Return tt, emit (SetTimeout ms) w).

Definition console_log (args : list string) : M unit :=
  fun w => (Return tt, emit (ConsoleLog args) w).

(** [await response.json()] and [await response.text()] *)
Definition Response_json (r : Response.t T) : M (PixverseResponse T) :=
  match Response.json r with
  | inl e => throw e
  | inr data => mret data
  end.

Definition Response_text (r : Response.t T) : M string :=
  match Response.text r with
  | inl e => throw e
  | inr s => mret s
  end.

(** The events a run of [m] adds to the trace of [w]. *)
Definition run_trace {A} (m : M A) (w : World) : list Event :=
  drop (length (trace w)) (trace (m w).2).

Definition is_fetch (e : Event) : bool :=
  match e with Fetch _ _ => true | _ => false end.

Definition fetches (tr : list Event) : list Event := List.filter is_fetch tr.

(** *** [class PixverseClient] *)

Definition baseUrl : string := "https://app-api.pixverse.ai".

(** [this.config], fixed by the constructor. *)
Variable config : PixverseConfig.t.

(** The header object literal of [request]: the fixed entries, then the
    spread of [this.config.headers], whose entries replace fixed ones of
    the same name. An absent token is sent as the text [undefined]. *)
Definition request_headers (traceId : string) : gmap string string :=
  default ∅ (PixverseConfig.headers config) ∪
  list_to_map [
    ("Content-Type", "application/json");
    ("User-Agent",
      "Mozilla/5.0 (Macintosh; Intel Mac OS X 10.15; rv:136.0) Gecko/20100101 Firefox/136.0");
    ("X-Platform", "Web");
    ("Referer", "https://app.pixverse.ai/");
    ("Origin", "https://app.pixverse.ai");
    ("Sec-Fetch-Dest", "empty");
    ("Sec-Fetch-Mode", "cors");
    ("Sec-Fetch-Site", "same-site");
    ("Sec-GPC", "1");
    ("Accept", "application/json, text/plain, */*");
    ("Accept-Language", "en-US");
    ("Ai-Trace-Id", traceId);
    ("Token", Js.interpolate (PixverseConfig.token config))
  ].

(** [{ ...options, headers, credentials: 'omit', mode: 'cors' }]: the
    keys written after the spread replace those of [options]. *)
Definition request_init (options : RequestInit.t)
    (headers : gmap string string) : RequestInit.t :=
  {| RequestInit.method := RequestInit.method options;
     RequestInit.body := RequestInit.body options;
     RequestInit.headers := Some headers;
     RequestInit.credentials := Some "omit";
     RequestInit.mode := Some "cors" |}.

(** [retries = 3], the default of [request]'s last parameter, which no
    caller in the class overrides. *)
Definition retries_default : nat := 3.

Fixpoint request (endpoint : string) (options : RequestInit.t)
    (retries : nat) : M (PixverseResponse T) :=
  let url := baseUrl +:+ endpoint in
  traceId ← crypto_randomUUID;
  let headers := request_headers traceId in
  try_catch
    (response ← fetch url (request_init options headers);
     if negb (Response.ok response) then
       throw (Error ("HTTP error! status: "
                       +:+ Js.Number_toString (Response.status response)))
     else
       data ← Response_json response;
       if negb (ErrCode data =? 0) then
         throw (Error ("API error: " +:+ ErrMsg data +:+ " (Code: "
                         +:+ Js.Number_toString (ErrCode data) +:+ ")"))
       else mret data)
    (fun error =>
       match retries with
       | S retries' =>
           setTimeout 1000;;
           request endpoint options retries'
       | O => throw error
       end).

(** *** [uploadToOSS]: the values it derives before the PUT *)

Definition fileExt (fileName : string) : string :=
  if Js.includes fileName "." then
    "." +:+ Js.interpolate (Js.pop (Js.split fileName "."))
  else "".

Definition ossHeaders (date : string) (uploadToken : UploadTokenResponse)
    : list (string * string) :=
  [ ("x-oss-date", date);
    ("x-oss-security-token", Token uploadToken);
    ("x-oss-forbid-overwrite", "true");
    ("x-oss-user-agent", "aliyun-sdk-js/6.22.0 Firefox 136.0 on OS X 10.15") ].

Definition canonicalizedOSSHeaders (date : string)
    (uploadToken : UploadTokenResponse) : string :=
  Js.join Js.LF
    (map (fun kv => Js.toLowerCase kv.1 +:+ ":" +:+ kv.2)
       (Js.sort (fun a b => Js.localeCompare a.1 b.1)
          (Js.Object_entries (ossHeaders date uploadToken))))
  +:+ Js.LF.

Definition canonicalizedResource (path : string) : string :=
  "/pixverse-fe-upload/" +:+ path.

Definition stringToSign (method contentType date : string)
    (uploadToken : UploadTokenResponse) (path : string) : string :=
  Js.join Js.LF
    [ method;
      "";
      contentType;
      date;
      canonicalizedOSSHeaders date uploadToken +:+ canonicalizedResource path ].

Definition signature (method contentType date : string)
    (uploadToken : UploadTokenResponse) (path : string) : string :=
  NodeCrypto.createHmac_sha1_base64 (Sk uploadToken)
    (stringToSign method contentType date uploadToken path).

(** The header object literal of the PUT. *)
Definition upload_headers (file : File.t) (date : string)
    (uploadToken : UploadTokenResponse) (signature : string)
    : gmap string string :=
  list_to_map [
    ("Accept", "*/*");
    ("x-oss-date", date);
    ("x-oss-user-agent", "aliyun-sdk-js/6.22.0 Firefox 136.0 on OS X 10.15");
    ("x-oss-security-token", Token uploadToken);
    ("Access-Control-Allow-Origin", "*");
    ("x-oss-forbid-overwrite", "true");
    ("Content-Type", File.type file);
    ("authorization", "OSS " +:+ Ak uploadToken +:+ ":" +:+ signature)
  ].

Definition uploadToOSS (file : File.t) (fileName : string)
    (uploadToken : UploadTokenResponse) : M OSSUploadResponse.t :=
  uuid ← crypto_randomUUID;
  let name := uuid +:+ fileExt fileName in
  let path := "upload/" +:+ name in
  console_log ["Uploading file to OSS..."];;
  let url := "https://pixverse-fe-upload.oss-accelerate.aliyuncs.com/" +:+ path in
  date ← Date_toUTCString;
  let method := "PUT" in
  let contentType := File.type file in
  let signature := signature method contentType date uploadToken path in
  console_log ["Signature:"; signature; File.type file];;
  try_catch
    (let headers := upload_headers file date uploadToken signature in
     response ← fetch url
       {| RequestInit.method := Some "PUT";
          RequestInit.headers := Some headers;
          RequestInit.body := Some (FileBody file);
          RequestInit.credentials := Some "include";
          RequestInit.mode := Some "cors" |};
     if negb (Response.ok response) then
       errorText ← Response_text response;
       throw (Error ("Failed to upload file ("
                       +:+ Js.Number_toString (Response.status response)
                       +:+ "): "
                       +:+ Js.or_string errorText (Response.statusText response)))
     else
       mret {| OSSUploadResponse.name := name;
               OSSUploadResponse.path := path;
               OSSUploadResponse.type :=
                 if String.eqb (File.type file) "video/mp4" then 1 else 2 |})
    (fun error => throw error).

(** *** The convenience methods *)

Definition POST (body : option BodyInit)
    (headers : option (gmap string string)) : RequestInit.t :=
  {| RequestInit.method := Some "POST";
     RequestInit.headers := headers;
     RequestInit.body := body;
     RequestInit.credentials := None;
     RequestInit.mode := None |}.

Definition getUploadToken : M T :=
  response ← request "/creative_platform/getUploadToken"
               (POST None None) retries_default;
  mret (Resp response).

Definition uploadMedia (uploadRequest : MediaUploadRequest.t) : M T :=
  response ← request "/creative_platform/media/upload"
               (POST (Some (JSON_stringify (OfMediaUploadRequest uploadRequest)))
                  None)
               retries_default;
  mret (Resp response).

Definition createLipSync (request_ : LipSyncRequest.t)
    : M (PixverseResponse T) :=
  if Js.not_string (LipSyncRequest.customer_video_path request_)
     || Js.not_string (LipSyncRequest.lip_sync_tts_content request_)
  then
    throw (Error
      "Missing required fields: customer_video_path and lip_sync_tts_content are required")
  else if Js.le_zero (LipSyncRequest.customer_video_duration request_) then
    throw (Error "Invalid video duration: must be greater than 0")
  else
    request "/creative_platform/video/lip_sync"
      (POST (Some (JSON_stringify (OfLipSyncRequest request_)))
         (Some {[ "Refresh" := "credit" ]}))
      retries_default.

Definition getLastVideoFrame (request_ : LastVideoFrameRequest.t)
    : M (PixverseResponse T) :=
  if Js.not_string (LastVideoFrameRequest.video_path request_)
     || Js.le_zero (LastVideoFrameRequest.duration request_)
  then
    throw (Error
      "Missing required fields: video_path and duration must be provided and duration must be greater than 0")
  else
    request "/creative_platform/video/frame/last"
      (POST (Some (JSON_stringify (OfLastVideoFrameRequest request_))) None)
      retries_default.

Definition getVideoDetails (request_ : VideoDetailsRequest.t)
    : M (PixverseResponse T) :=
  if Js.not_number (VideoDetailsRequest.video_id request_) then
    throw (Error "Missing required field: video_id must be provided")
  else
    request "/creative_platform/video/list/detail"
      (POST (Some (JSON_stringify (OfVideoDetailsRequest request_))) None)
      retries_default.

End Client.

Arguments World T : clear implicits.
Arguments M T A : clear implicits.

(** ** Reading a run

    The definitions below describe attempts, replies and traces; the
    theorems are stated with them. *)

Section Attempts.

Context {T : Type}.

Implicit Types (w : World T) (reply : JsError + Response.t T).

(** The error [request] raises for an envelope with a code other than 0. *)
Definition api_error (data : PixverseResponse T) : JsError :=
  Error ("API error: " +:+ ErrMsg data +:+ " (Code: "
           +:+ Js.Number_toString (ErrCode data) +:+ ")").

(** How one attempt ends, read off the reply of the transport. *)
Inductive fails_with : JsError + Response.t T -> JsError -> Prop :=
| fails_network e :
    fails_with (inl e) e
| fails_status r :
    Response.ok r = false ->
    fails_with (inr r)
      (Error ("HTTP error! status: " +:+ Js.Number_toString (Response.status r)))
| fails_decoding r e :
    Response.ok r = true ->
    Response.json r = inl e ->
    fails_with (inr r) e
| fails_code r data :
    Response.ok r = true ->
    Response.json r = inr data ->
    ErrCode data <> 0 ->
    fails_with (inr r) (api_error data).

Definition succeeds_with reply (data : PixverseResponse T) : Prop :=
  exists r, reply = inr r /\ Response.ok r = true
            /\ Response.json r = inr data /\ ErrCode data = 0.

(** The same reading as a function, for unfolding [request]. *)
Definition attempt_result reply : Completion (PixverseResponse T) :=
  match reply with
  | inl e => Throw e
  | inr r =>
      if Response.ok r then
        match Response.json r with
        | inl e => Throw e
        | inr data =>
            if ErrCode data =? 0 then Return data else Throw (api_error data)
        end
      else Throw (Error ("HTTP error! status: "
                           +:+ Js.Number_toString (Response.status r)))
  end.

(** The reply to attempt number [k], the first being number 1, of a call
    to [request] that starts in [w]. *)
Definition nth_reply w (k : nat) : JsError + Response.t T :=
  network w (fetched w + pred k).

Variable config : PixverseConfig.t.
Variables (endpoint : string) (options : RequestInit.t).

(** The [fetch] call of the attempt that draws trace id number [d] from
    the stream [uuids]. *)
Definition attempt_event (uuids : nat -> string) (d : nat) : Event :=
  Fetch (baseUrl +:+ endpoint)
    (request_init options (request_headers config (uuids d))).

(** The world once an attempt has drawn its trace id and fetched. *)
Definition attempted w : World T :=
  {| network := network w; randomUUIDs := randomUUIDs w; clock := clock w;
     fetched := S (fetched w); drawn := S (drawn w); read := read w;
     trace := trace w ++ [attempt_event (randomUUIDs w) (drawn w)] |}.

(** The trace of [k] attempts in a row, the first drawing trace id [d]:
    a one-second timer between any two. *)
Fixpoint attempts_trace (uuids : nat -> string) (d k : nat) : list Event :=
  match k with
  | O => []
  | S k' =>
      attempt_event uuids d ::
      match k' with
      | O => []
      | S _ => SetTimeout 1000 :: attempts_trace uuids (S d) k'
      end
  end.

Definition after_attempts w (k : nat) : World T :=
  {| network := network w; randomUUIDs := randomUUIDs w; clock := clock w;
     fetched := fetched w + k; drawn := drawn w + k; read := read w;
     trace := trace w ++ attempts_trace (randomUUIDs w) (drawn w) k |}.

End Attempts.

Section Uploads.

Context {T : Type}.
Variables (file : File.t) (fileName : string) (uploadToken : UploadTokenResponse).

Implicit Types (w : World T).

(** The [fetch] call of an invocation that draws [uuid] and reads [date]. *)
Definition upload_event (uuid date : string) : Event :=
  let path := "upload/" +:+ uuid +:+ fileExt fileName in
  Fetch ("https://pixverse-fe-upload.oss-accelerate.aliyuncs.com/" +:+ path)
    {| RequestInit.method := Some "PUT";
       RequestInit.headers :=
         Some (upload_headers file date uploadToken
                 (signature "PUT" (File.type file) date uploadToken path));
       RequestInit.body := Some (FileBody file);
       RequestInit.credentials := Some "include";
       RequestInit.mode := Some "cors" |}.

(** What an invocation that draws [uuid] and reads [date] adds to the
    trace. *)
Definition upload_trace (uuid date : string) : list Event :=
  let path := "upload/" +:+ uuid +:+ fileExt fileName in
  [ ConsoleLog ["Uploading file to OSS..."];
    ConsoleLog ["Signature:";
                signature "PUT" (File.type file) date uploadToken path;
                File.type file];
    upload_event uuid date ].

Definition uploaded w : World T :=
  {| network := network w; randomUUIDs := randomUUIDs w; clock := clock w;
     fetched := S (fetched w); drawn := S (drawn w); read := S (read w);
     trace := trace w ++ upload_trace (randomUUIDs w (drawn w)) (clock w (read w)) |}.

(** How the invocation ends, read off the reply to its PUT. *)
Definition upload_result (uuid : string) (reply : JsError + Response.t T)
    : Completion OSSUploadResponse.t :=
  match reply with
  | inl e => Throw e
  | inr r =>
      if Response.ok r then
        Return {| OSSUploadResponse.name := uuid +:+ fileExt fileName;
                  OSSUploadResponse.path := "upload/" +:+ uuid +:+ fileExt fileName;
                  OSSUploadResponse.type :=
                    if String.eqb (File.type file) "video/mp4" then 1 else 2 |}
      else
        match Response.text r with
        | inl e => Throw e
        | inr errorText =>
            Throw (Error ("Failed to upload file ("
                            +:+ Js.Number_toString (Response.status r)
                            +:+ "): "
                            +:+ Js.or_string errorText (Response.statusText r)))
        end
  end.

End Uploads.

Definition absent_or_empty (v : option string) : Prop := v = None \/ v = Some "".


(** The signing string as the specification words it: the method, a blank
    line, the content type, the date, then a header block of lower-cased
    [key:value] lines for exactly the security-token, forbid-overwrite and
    client-identifier headers, sorted by key and each ended by a newline,
    immediately followed by the resource path, all joined with newlines. *)
Definition claimed_stringToSign (method contentType date : string)
    (uploadToken : UploadTokenResponse) (path : string) : string :=
  let three :=
    [ ("x-oss-security-token", Token uploadToken);
      ("x-oss-forbid-overwrite", "true");
      ("x-oss-user-agent", "aliyun-sdk-js/6.22.0 Firefox 136.0 on OS X 10.15") ] in
  let block :=
    fold_right (fun kv acc => Js.toLowerCase kv.1 +:+ ":" +:+ kv.2 +:+ Js.LF +:+ acc) ""
      (Js.sort (fun a b => Js.localeCompare a.1 b.1) three) in
  Js.join Js.LF [method; ""; contentType; date; block +:+ canonicalizedResource path].

(** The lines of the string that [uploadToOSS] signs. *)
Definition signed_lines (method contentType date : string)
    (uploadToken : UploadTokenResponse) (path : string) : list string :=
  [ method;
    "";
    contentType;
    date;
    "x-oss-date:" +:+ date;
    "x-oss-forbid-overwrite:true";
    "x-oss-security-token:" +:+ Token uploadToken;
    "x-oss-user-agent:aliyun-sdk-js/6.22.0 Firefox 136.0 on OS X 10.15";
    "/pixverse-fe-upload/" +:+ path ].

(** The signatures a trace shows on the console. *)
Definition signatures_of (tr : list Event) : list string :=
  flat_map (fun e =>
              match e with
              | ConsoleLog [label; sig; _] =>
                  if String.eqb label "Signature:" then [sig] else []
              | _ => []
              end) tr.

(** A string that is there and not empty. *)
Definition present (v : option string) : Prop :=
  exists s, v = Some s /\ s <> "".

(** A number that is there and at most 0, one that is above 0, and one
    that is there and neither 0 nor NaN. *)
Definition at_most_zero (v : option Js.number) : Prop :=
  match v with
  | Some (Js.Finite q) => (q <= 0)%Q
  | Some Js.NegInfinity => True
  | _ => False
  end.

Definition strictly_positive (v : option Js.number) : Prop :=
  match v with
  | Some (Js.Finite q) => (0 < q)%Q
  | Some Js.PosInfinity => True
  | _ => False
  end.

Definition nonzero_number (v : option Js.number) : Prop :=
  match v with
  | Some (Js.Finite q) => ~ (q == 0)%Q
  | Some Js.PosInfinity | Some Js.NegInfinity => True
  | _ => False
  end.

Definition absent_or_zero (v : option Js.number) : Prop :=
  v = None \/ exists q, v = Some (Js.Finite q) /\ (q == 0)%Q.

(** The inputs that pass the guards: the duration is not a number at most
    0, so that one above 0, NaN or an absent one passes. *)
Definition valid_LipSyncRequest (r : LipSyncRequest.t) : Prop :=
  present (LipSyncRequest.customer_video_path r)
  /\ present (LipSyncRequest.lip_sync_tts_content r)
  /\ ~ at_most_zero (LipSyncRequest.customer_video_duration r).

Definition valid_LastVideoFrameRequest (r : LastVideoFrameRequest.t) : Prop :=
  present (LastVideoFrameRequest.video_path r)
  /\ ~ at_most_zero (LastVideoFrameRequest.duration r).

Definition valid_VideoDetailsRequest (r : VideoDetailsRequest.t) : Prop :=
  nonzero_number (VideoDetailsRequest.video_id r).

(** A [fetch] of the control plane as the executor issues it for [options]:
    to [url], with the method and body of [options], the executor's header
    object for some trace id, and the forced credentials and mode. *)
Definition executor_fetch (config : PixverseConfig.t) (url : string)
    (options : RequestInit.t) (e : Event) : Prop :=
  exists traceId,
    e = Fetch url
          {| RequestInit.method := RequestInit.method options;
             RequestInit.headers := Some (request_headers config traceId);
             RequestInit.body := RequestInit.body options;
             RequestInit.credentials := Some "omit";
             RequestInit.mode := Some "cors" |}.

(** The run of [m] from [w] contacts nothing but [endpoint], by POST with
    [body], and sets no timer but the executor's. *)
Definition only_posts_to {T A} (config : PixverseConfig.t) (m : M T A)
    (w : World T) (endpoint : string) (body : option BodyInit) : Prop :=
  forall ev,
    In ev (run_trace m w) ->
    ev = SetTimeout 1000
    \/ executor_fetch config (baseUrl +:+ endpoint) (POST body None) ev.

(** All four attempts of a default call that starts in [w] fail, the last
    one with [e]. *)
Definition exhausted {T} (w : World T) (e : JsError) : Prop :=
  (forall i, (1 <= i <= 4)%nat -> exists e', fails_with (nth_reply w i) e')
  /\ fails_with (nth_reply w 4) e.

Definition is_console (e : Event) : bool :=
  match e with ConsoleLog _ => true | _ => false end.

(** ** Sample runs *)
Module Samples.

Definition config : PixverseConfig.t :=
  {| PixverseConfig.headers := None; PixverseConfig.token := Some "tok" |}.

Definition uploadToken : UploadTokenResponse :=
  {| Ak := "STS.ak"; Sk := "secret"; Token := "sts-token" |}.

Definition response (status : Z) (statusText body : string)
    (envelope : JsError + PixverseResponse string) : Response.t string :=
  {| Response.status := status; Response.statusText := statusText;
     Response.text := inr body; Response.json := envelope |}.

Definition world (net : nat -> JsError + Response.t string) : World string :=
  {| network := net;
     randomUUIDs := fun n => "uuid-" +:+ Js.Number_toString (Z.of_nat n);
     clock := fun n => "Sun, 01 Nov 2026 00:00:0" +:+ Js.Number_toString (Z.of_nat n) +:+ " GMT";
     fetched := 0; drawn := 0; read := 0; trace := [] |}.

Definition clip : File.t :=
  {| File.type := "video/mp4"; File.content := "0123456789" |}.

Definition lipSync : LipSyncRequest.t :=
  {| LipSyncRequest.customer_video_path := Some "upload/uuid-0.mp4";
     LipSyncRequest.lip_sync_tts_content := Some "hello";
     LipSyncRequest.lip_sync_tts_speaker_id := "1";
     LipSyncRequest.model := "v4";
     LipSyncRequest.customer_video_url := "https://media.pixverse.ai/upload/uuid-0.mp4";
     LipSyncRequest.customer_video_duration := Some (Js.Finite 26);
     LipSyncRequest.customer_video_last_frame_url := "";
     LipSyncRequest.credit_change := 0 |}.

End Samples.

(** * Theorems *)

(** ** The signing primitive on published test vectors *)

Example sha1_abc :
  NodeCrypto.sha1 (NodeCrypto.bytes_of_string "abc")
  = [169; 153; 62; 54; 71; 6; 129; 106; 186; 62; 37; 113; 120; 80; 194; 108;
     156; 208; 216; 157].
Proof. vm_compute. reflexivity. Qed.

Example hmac_sha1_rfc2202_case2 :
  NodeCrypto.createHmac_sha1_base64 "Jefe" "what do ya want for nothing?"
  = "7/zfauXrL6LSdBbV8YTfnCWafHk=".
Proof. vm_compute. reflexivity. Qed.

(** ** Strings *)

Lemma append_cons (a : ascii) (s1 s2 : string) :
  String a s1 +:+ s2 = String a (s1 +:+ s2).
Proof. reflexivity. Qed.

Lemma append_assoc (s1 s2 s3 : string) :
  (s1 +:+ s2) +:+ s3 = s1 +:+ (s2 +:+ s3).
Proof.
  induction s1 as [|a s1 IH]; [reflexivity|].
  rewrite !append_cons. by rewrite IH.
Qed.

Lemma occurs_in_middle (pre sub post : string) :
  Js.occurs_in sub (pre +:+ sub +:+ post).
Proof. by exists pre, post. Qed.

(** ** The request executor *)
Section Executor.

Context {T : Type}.
Variable config : PixverseConfig.t.
Variables (endpoint : string) (options : RequestInit.t).

Implicit Types (w : World T) (reply : JsError + Response.t T).

Lemma attempt_result_fails reply e :
  fails_with reply e -> attempt_result reply = Throw e.
Proof.
  destruct 1 as [e|r Hok|r e Hok Hj|r data Hok Hj Hc]; simpl;
    rewrite ?Hok, ?Hj; try reflexivity.
  destruct (ErrCode data =? 0) eqn:E; [|reflexivity].
  apply Z.eqb_eq in E. contradiction.
Qed.

Lemma attempt_result_succeeds reply data :
  succeeds_with reply data -> attempt_result reply = Return data.
Proof.
  intros (r & -> & Hok & Hj & Hc). simpl. by rewrite Hok, Hj, Hc.
Qed.

Lemma attempt_result_Return reply data :
  attempt_result reply = Return data -> succeeds_with reply data.
Proof.
  destruct reply as [e|r]; simpl; [discriminate|].
  destruct (Response.ok r) eqn:Hok; [|discriminate].
  destruct (Response.json r) as [e|d] eqn:Hj; [discriminate|].
  destruct (ErrCode d =? 0) eqn:Hc; [|discriminate].
  intros [= ->]. exists r. repeat split; try done. by apply Z.eqb_eq.
Qed.

Lemma fails_with_functional reply e1 e2 :
  fails_with reply e1 -> fails_with reply e2 -> e1 = e2.
Proof.
  intros H1 H2. apply attempt_result_fails in H1, H2. congruence.
Qed.

Lemma request_unfold retries w :
  request config endpoint options retries w =
    match attempt_result (network w (fetched w)) with
    | Return data => (Return data, attempted config endpoint options w)
    | Throw e =>
        match retries with
        | S retries' =>
            request config endpoint options retries'
              (emit (SetTimeout 1000) (attempted config endpoint options w))
        | O => (Throw e, attempted config endpoint options w)
        end
    end.
Proof.
  destruct retries as [|retries'];
    (unfold request at 1; fold (request (T:=T));
     unfold mbind, M_bind, try_catch, crypto_randomUUID, fetch, attempted,
       attempt_event, attempt_result; simpl;
     destruct (network w (fetched w)) as [e|r]; simpl; [reflexivity|];
     destruct (Response.ok r); simpl; [|reflexivity];
     unfold Response_json; destruct (Response.json r) as [e|data]; simpl;
       [reflexivity|];
     destruct (ErrCode data =? 0); reflexivity).
Qed.

Lemma after_attempts_one w :
  after_attempts config endpoint options w 1 = attempted config endpoint options w.
Proof.
  unfold after_attempts, attempted. simpl.
  by rewrite !Nat.add_1_r.
Qed.

Lemma after_attempts_retry w k :
  after_attempts config endpoint options (emit (SetTimeout 1000) (attempted config endpoint options w)) (S k)
  = after_attempts config endpoint options w (S (S k)).
Proof.
  unfold after_attempts, emit, attempted. simpl.
  rewrite <- !(Nat.add_succ_r _ (S k)).
  by rewrite <- !app_assoc.
Qed.

(** An attempt is number [j], counted from 0, of a call that starts in
    [w] when its reply is [network w (fetched w + j)]. A call with
    [retries] retries whose attempts before number [j] all fail returns
    what attempt [j] decodes when that one succeeds, and throws what the
    last attempt throws when that one fails too. *)
Lemma request_run retries : forall w j,
  (j <= retries)%nat ->
  (forall i, (i < j)%nat -> exists e, fails_with (network w (fetched w + i)) e) ->
  (forall data,
      succeeds_with (network w (fetched w + j)) data ->
      request config endpoint options retries w
      = (Return data, after_attempts config endpoint options w (S j)))
  /\ (forall e,
      j = retries ->
      fails_with (network w (fetched w + j)) e ->
      request config endpoint options retries w
      = (Throw e, after_attempts config endpoint options w (S j))).
Proof.
  induction retries as [|retries' IH]; intros w j Hj Hbefore.
  - assert (j = 0%nat) as -> by lia. rewrite Nat.add_0_r.
    split.
    + intros data Hs. rewrite request_unfold.
      rewrite (attempt_result_succeeds _ _ Hs).
      by rewrite after_attempts_one.
    + intros e _ Hf. rewrite request_unfold.
      rewrite (attempt_result_fails _ _ Hf).
      by rewrite after_attempts_one.
  - destruct j as [|j'].
    + rewrite Nat.add_0_r. split.
      * intros data Hs. rewrite request_unfold.
        rewrite (attempt_result_succeeds _ _ Hs).
        by rewrite after_attempts_one.
      * intros e Hz. discriminate Hz.
    + destruct (Hbefore 0%nat ltac:(lia)) as [e0 He0].
      rewrite Nat.add_0_r in He0.
      set (w2 := emit (SetTimeout 1000) (attempted config endpoint options w)).
      assert (Hshift : forall i,
                 network w2 (fetched w2 + i) = network w (fetched w + S i)).
      { intros i. subst w2. simpl. by rewrite Nat.add_succ_r. }
      destruct (IH w2 j' ltac:(lia)) as [IHs IHf].
      { intros i Hi. rewrite Hshift. apply Hbefore. lia. }
      split.
      * intros data Hs. rewrite request_unfold.
        rewrite (attempt_result_fails _ _ He0).
        fold w2. rewrite <- Hshift in Hs.
        rewrite (IHs data Hs). subst w2.
        by rewrite after_attempts_retry.
      * intros e Hz Hf. rewrite request_unfold.
        rewrite (attempt_result_fails _ _ He0).
        fold w2. rewrite <- Hshift in Hf.
        rewrite (IHf e ltac:(lia) Hf). subst w2.
        by rewrite after_attempts_retry.
Qed.

Lemma fetches_attempts_trace uuids k : forall d,
  length (fetches (attempts_trace config endpoint options uuids d k)) = k.
Proof.
  induction k as [|k' IH]; intros d; [reflexivity|].
  destruct k' as [|k'']; [reflexivity|].
  change (S (length (fetches (attempts_trace config endpoint options uuids (S d) (S k'')))) = S (S k'')).
  by rewrite IH.
Qed.

Lemma run_trace_after_attempts {A} (m : M T A) w k (c : Completion A) :
  m w = (c, after_attempts config endpoint options w k) ->
  run_trace m w = attempts_trace config endpoint options (randomUUIDs w) (drawn w) k.
Proof.
  intros H. unfold run_trace. rewrite H. simpl. apply drop_app_length.
Qed.

(** Whatever [request] returns was decoded from a successful reply to
    one of its attempts. *)
Lemma request_Return_inv retries : forall w data w',
  request config endpoint options retries w = (Return data, w') ->
  exists k, (1 <= k <= S retries)%nat
            /\ succeeds_with (network w (fetched w + pred k)) data.
Proof.
  induction retries as [|retries' IH]; intros w data w' H;
    rewrite request_unfold in H;
    destruct (attempt_result (network w (fetched w))) as [d|e] eqn:E.
  - injection H as -> _. exists 1%nat. split; [lia|].
    simpl. rewrite Nat.add_0_r. by apply attempt_result_Return.
  - discriminate H.
  - injection H as -> _. exists 1%nat. split; [lia|].
    simpl. rewrite Nat.add_0_r. by apply attempt_result_Return.
  - apply IH in H as (k & Hk & Hs). exists (S k). split; [lia|].
    simpl in Hs. simpl.
    replace (fetched w + k)%nat with (S (fetched w + pred k)) by lia.
    exact Hs.
Qed.

(** The default call when every attempt fails. *)
Lemma request_default_all_fail w e :
  (forall k, (1 <= k <= 4)%nat -> exists e', fails_with (nth_reply w k) e') ->
  fails_with (nth_reply w 4) e ->
  request config endpoint options retries_default w
  = (Throw e, after_attempts config endpoint options w 4).
Proof.
  intros Hall He.
  destruct (request_run 3 w 3 ltac:(lia)) as [_ Hf].
  { intros i Hi. apply (Hall (S i)). lia. }
  exact (Hf e eq_refl He).
Qed.

End Executor.

(** C3: a call to [request] with the default retry budget whose four
    attempts all fail (the transport rejects, the status is not 2xx, the
    body does not decode, or the envelope's code is not 0) fetches exactly
    four times, waits on a 1000 ms timer between consecutive attempts and
    at no other point, and throws the very error of the fourth attempt. *)
Theorem request_exhausts_retries {T} (config : PixverseConfig.t)
    (endpoint : string) (options : RequestInit.t) (w : World T) :
  (forall k, (1 <= k <= 4)%nat -> exists e, fails_with (nth_reply w k) e) ->
  let call := request config endpoint options retries_default in
  let attempt := attempt_event config endpoint options (randomUUIDs w) in
  exists e,
    fails_with (nth_reply w 4) e
    /\ (call w).1 = Throw e
    /\ run_trace call w =
         [ attempt (drawn w); SetTimeout 1000;
           attempt (S (drawn w)); SetTimeout 1000;
           attempt (S (S (drawn w))); SetTimeout 1000;
           attempt (S (S (S (drawn w)))) ]
    /\ length (fetches (run_trace call w)) = 4%nat
    /\ fetched (call w).2 = (fetched w + 4)%nat.
Proof.
  intros Hall call attempt.
  destruct (Hall 4%nat ltac:(lia)) as [e He].
  pose proof (request_default_all_fail config endpoint options w e Hall He) as Hf.
  exists e. split; [exact He|].
  subst call.
  rewrite (run_trace_after_attempts _ _ _ _ _ _ _ Hf), Hf.
  repeat split; reflexivity.
Qed.

Lemma request_exhausts_retries_witness :
  let w := Samples.world (fun _ => inr (Samples.response 503 "Service Unavailable" ""
                                         (inl (SyntaxError "no body")))) in
  let call := request Samples.config "/creative_platform/getUploadToken"
                (POST None None) retries_default in
  exists e,
    fails_with (nth_reply w 4) e
    /\ (call w).1 = Throw e
    /\ length (fetches (run_trace call w)) = 4%nat.
Proof.
  intros w call.
  destruct (request_exhausts_retries Samples.config
              "/creative_platform/getUploadToken" (POST None None) w)
    as (e & He & Hr & _ & Hn & _).
  - intros k _. eexists. apply fails_status. reflexivity.
  - exists e. repeat split; assumption.
Defined.

(** C4, as amended: a call to [request] with the default retry budget
    whose attempts before number [k] fail and whose attempt number [k],
    for [k] from 1 to 4, gets a 2xx response that decodes to an envelope
    with code 0, returns that whole decoded envelope, with its code, its
    message and its payload, and makes exactly [k] attempts. *)
Theorem request_first_success {T} (config : PixverseConfig.t)
    (endpoint : string) (options : RequestInit.t) (w : World T)
    (k : nat) (data : PixverseResponse T) :
  (1 <= k <= 4)%nat ->
  (forall i, (1 <= i < k)%nat -> exists e, fails_with (nth_reply w i) e) ->
  succeeds_with (nth_reply w k) data ->
  let call := request config endpoint options retries_default in
  (call w).1 = Return data
  /\ run_trace call w
     = attempts_trace config endpoint options (randomUUIDs w) (drawn w) k
  /\ length (fetches (run_trace call w)) = k
  /\ fetched (call w).2 = (fetched w + k)%nat.
Proof.
  intros Hk Hbefore Hs call.
  destruct k as [|j]; [lia|].
  destruct (request_run config endpoint options 3 w j ltac:(lia)) as [Hok _].
  { intros i Hi. apply (Hbefore (S i)). lia. }
  specialize (Hok data Hs).
  subst call. unfold retries_default.
  rewrite (run_trace_after_attempts _ _ _ _ _ _ _ Hok), Hok.
  repeat split; try reflexivity.
  apply fetches_attempts_trace.
Qed.

Lemma request_first_success_witness :
  let envelope := {| ErrCode := 0; ErrMsg := "Success"; Resp := "token" |} in
  let w := Samples.world (fun n =>
             if (n <? 2)%nat then inl (TypeError "fetch failed")
             else inr (Samples.response 200 "OK" "" (inr envelope))) in
  let call := request Samples.config "/creative_platform/getUploadToken"
                (POST None None) retries_default in
  (call w).1 = Return envelope
  /\ length (fetches (run_trace call w)) = 3%nat.
Proof.
  intros envelope w call.
  destruct (request_first_success Samples.config
              "/creative_platform/getUploadToken" (POST None None) w 3 envelope)
    as (Hr & _ & Hn & _).
  - lia.
  - intros i Hi. exists (TypeError "fetch failed").
    assert (i = 1 \/ i = 2)%nat as [-> | ->] by lia; apply fails_network.
  - eexists. repeat split; reflexivity.
  - split; assumption.
Defined.

(** C4, as the specification words it, fails: the result of [request] is
    not the payload of the succeeding response. It is the envelope, which
    also holds the message: two responses with the same payload and
    different messages give different results, while [getUploadToken],
    which does return the payload, gives the same for both. *)
Lemma request_returns_envelope_not_payload :
  let e1 := {| ErrCode := 0; ErrMsg := "Success"; Resp := "token" |} in
  let e2 := {| ErrCode := 0; ErrMsg := "OK"; Resp := "token" |} in
  let w1 := Samples.world (fun _ => inr (Samples.response 200 "OK" "" (inr e1))) in
  let w2 := Samples.world (fun _ => inr (Samples.response 200 "OK" "" (inr e2))) in
  let call := request Samples.config "/creative_platform/getUploadToken"
                (POST None None) retries_default in
  Resp e1 = Resp e2
  /\ (call w1).1 = Return e1
  /\ (call w2).1 = Return e2
  /\ (call w1).1 <> (call w2).1
  /\ (getUploadToken Samples.config w1).1 = Return "token"
  /\ (getUploadToken Samples.config w2).1 = Return "token".
Proof.
  intros e1 e2 w1 w2 call.
  split; [reflexivity|]. split; [reflexivity|]. split; [reflexivity|].
  split; [|split; reflexivity].
  intros H. vm_compute in H. discriminate H.
Qed.

(** C5: an attempt that gets a 2xx response whose envelope has a code other
    than 0 is a failed attempt: [request] does not return its envelope, but
    retries after the timer while retries are left and throws otherwise.
    When all four attempts of a default call end so, it fetches four times
    and throws an error whose message contains the message and the decimal
    code of the fourth envelope. *)
Theorem request_application_error {T} (config : PixverseConfig.t)
    (endpoint : string) (options : RequestInit.t) :
  (forall (w : World T) retries r data,
      network w (fetched w) = inr r ->
      Response.ok r = true ->
      Response.json r = inr data ->
      ErrCode data <> 0 ->
      request config endpoint options retries w =
        match retries with
        | O => (Throw (api_error data), attempted config endpoint options w)
        | S retries' =>
            request config endpoint options retries'
              (emit (SetTimeout 1000) (attempted config endpoint options w))
        end)
  /\ (forall (w : World T),
      (forall k, (1 <= k <= 4)%nat ->
         exists r data, nth_reply w k = inr r /\ Response.ok r = true
                        /\ Response.json r = inr data /\ ErrCode data <> 0) ->
      let call := request config endpoint options retries_default in
      exists r data message,
        nth_reply w 4 = inr r
        /\ Response.json r = inr data
        /\ (call w).1 = Throw (Error message)
        /\ Js.occurs_in (ErrMsg data) message
        /\ Js.occurs_in (Js.Number_toString (ErrCode data)) message
        /\ length (fetches (run_trace call w)) = 4%nat).
Proof.
  split.
  - intros w retries r data Hr Hok Hj Hc.
    rewrite request_unfold.
    rewrite (attempt_result_fails (network w (fetched w)) (api_error data)).
    + by destruct retries.
    + rewrite Hr. by apply fails_code.
  - intros w Hall call.
    destruct (Hall 4%nat ltac:(lia)) as (r & data & Hr & Hok & Hj & Hc).
    assert (Hf : call w = (Throw (api_error data),
                           after_attempts config endpoint options w 4)).
    { apply request_default_all_fail.
      - intros k Hk. destruct (Hall k Hk) as (r' & d' & -> & ? & ? & ?).
        eexists. by eapply fails_code.
      - rewrite Hr. by apply fails_code. }
    exists r, data. eexists.
    split; [exact Hr|]. split; [exact Hj|]. split; [by rewrite Hf|].
    split; [|split].
    + apply (occurs_in_middle "API error: ").
    + rewrite <- (append_assoc "API error: " (ErrMsg data) _).
      rewrite <- (append_assoc _ " (Code: " _).
      apply occurs_in_middle.
    + subst call. by rewrite (run_trace_after_attempts _ _ _ _ _ _ _ Hf).
Qed.

Lemma request_application_error_witness :
  let envelope := {| ErrCode := 400017; ErrMsg := "invalid param"; Resp := "" |} in
  let w := Samples.world (fun _ => inr (Samples.response 200 "OK" "" (inr envelope))) in
  let call := request Samples.config "/creative_platform/video/lip_sync"
                (POST None None) retries_default in
  exists r data message,
    nth_reply w 4 = inr r
    /\ Response.json r = inr data
    /\ (call w).1 = Throw (Error message)
    /\ Js.occurs_in (ErrMsg data) message
    /\ Js.occurs_in (Js.Number_toString (ErrCode data)) message
    /\ length (fetches (run_trace call w)) = 4%nat.
Proof.
  intros envelope w call.
  apply (proj2 (request_application_error Samples.config
                  "/creative_platform/video/lip_sync" (POST None None)) w).
  intros k _. exists (Samples.response 200 "OK" "" (inr envelope)), envelope.
  repeat (split; [reflexivity|]). discriminate.
Defined.

(** ** The convenience methods *)

Lemma not_string_true v : absent_or_empty v -> Js.not_string v = true.
Proof. by intros [-> | ->]. Qed.

Lemma le_zero_true (v : option Js.number) :
  at_most_zero v -> Js.le_zero v = true.
Proof.
  destruct v as [[q| | |]|]; simpl; try tauto.
  intros H. by apply Qle_bool_iff.
Qed.

Lemma not_number_true (v : option Js.number) :
  absent_or_zero v -> Js.not_number v = true.
Proof.
  intros [-> | (q & -> & Hq)]; [reflexivity|].
  simpl. by apply Qeq_bool_iff.
Qed.

Lemma async_Throw {T A} (body : M T A) (w w' : World T) (e : JsError) :
  body w = (Throw e, w') -> async body w = (Return (Rejected e), w').
Proof. intros H. unfold async. by rewrite H. Qed.

(** Awaiting the call of an [async] function is running its body. *)
Lemma await_async {T A} (body : M T A) (w : World T) :
  (p ← async body; await p) w = body w.
Proof.
  unfold mbind, M_bind, async. by destruct (body w) as [[a|e] w'].
Qed.

(** C6, as amended: the call of [createLipSync] with an absent or empty
    video path or text, or with a duration that is a number at most 0, of
    [getLastVideoFrame] with an absent or empty video path or such a
    duration, and of [getVideoDetails] with an absent or zero video id,
    throws nothing: it completes with a promise that is rejected with an
    error, and leaves the world as it was, so that nothing is fetched,
    drawn, read, timed or logged. *)
Theorem validation_is_local {T} (config : PixverseConfig.t) (w : World T) :
  (forall r,
      absent_or_empty (LipSyncRequest.customer_video_path r)
      \/ absent_or_empty (LipSyncRequest.lip_sync_tts_content r)
      \/ at_most_zero (LipSyncRequest.customer_video_duration r) ->
      exists message,
        async (createLipSync config r) w = (Return (Rejected (Error message)), w))
  /\ (forall r,
      absent_or_empty (LastVideoFrameRequest.video_path r)
      \/ at_most_zero (LastVideoFrameRequest.duration r) ->
      exists message,
        async (getLastVideoFrame config r) w = (Return (Rejected (Error message)), w))
  /\ (forall r,
      absent_or_zero (VideoDetailsRequest.video_id r) ->
      exists message,
        async (getVideoDetails config r) w = (Return (Rejected (Error message)), w)).
Proof.
  split; [|split]; intros r H.
  - assert (exists message,
               createLipSync config r w = (Throw (Error message), w))
      as [message Hm]; [|exists message; by apply async_Throw].
    unfold createLipSync.
    destruct (Js.not_string (LipSyncRequest.customer_video_path r)) eqn:Hp;
      [by eexists|].
    destruct (Js.not_string (LipSyncRequest.lip_sync_tts_content r)) eqn:Hc;
      [by eexists|].
    destruct H as [H | [H | H]].
    + apply not_string_true in H. congruence.
    + apply not_string_true in H. congruence.
    + cbn [orb]. rewrite (le_zero_true _ H). by eexists.
  - assert (exists message,
               getLastVideoFrame config r w = (Throw (Error message), w))
      as [message Hm]; [|exists message; by apply async_Throw].
    unfold getLastVideoFrame.
    destruct (Js.not_string (LastVideoFrameRequest.video_path r)) eqn:Hp;
      [by eexists|].
    destruct H as [H | H].
    + apply not_string_true in H. congruence.
    + cbn [orb]. rewrite (le_zero_true _ H). by eexists.
  - eexists. apply async_Throw.
    unfold getVideoDetails. rewrite (not_number_true _ H). reflexivity.
Qed.

Lemma validation_is_local_witness :
  let w := Samples.world (fun _ => inl (TypeError "unreachable")) in
  let r := {| LipSyncRequest.customer_video_path := Some "upload/a.mp4";
              LipSyncRequest.lip_sync_tts_content := Some "hello";
              LipSyncRequest.lip_sync_tts_speaker_id := "1";
              LipSyncRequest.model := "v4";
              LipSyncRequest.customer_video_url := "https://media/a.mp4";
              LipSyncRequest.customer_video_duration := Some (Js.Finite 0);
              LipSyncRequest.customer_video_last_frame_url := "";
              LipSyncRequest.credit_change := 0 |} in
  exists message,
    async (createLipSync Samples.config r) w
    = (Return (Rejected (Error message)), w).
Proof.
  intros w r.
  apply (proj1 (validation_is_local Samples.config w) r).
  right. right. simpl. discriminate.
Defined.

(** C6, as the specification words it, fails twice. The call with a
    duration of 0 does not throw: it completes, with a rejected promise.
    And a duration that is NaN, which is not strictly positive, passes the
    guard: the call fetches. *)
Lemma validation_is_neither_synchronous_nor_complete :
  let w := Samples.world (fun _ => inl (TypeError "fetch failed")) in
  let with_duration d :=
    {| LipSyncRequest.customer_video_path := Some "upload/a.mp4";
       LipSyncRequest.lip_sync_tts_content := Some "hello";
       LipSyncRequest.lip_sync_tts_speaker_id := "1";
       LipSyncRequest.model := "v4";
       LipSyncRequest.customer_video_url := "https://media/a.mp4";
       LipSyncRequest.customer_video_duration := d;
       LipSyncRequest.customer_video_last_frame_url := "";
       LipSyncRequest.credit_change := 0 |} in
  (async (createLipSync Samples.config (with_duration (Some (Js.Finite 0)))) w).1
  = Return (Rejected (Error "Invalid video duration: must be greater than 0"))
  /\ ~ strictly_positive (Some Js.NaN)
  /\ length (fetches (run_trace
               (async (createLipSync Samples.config (with_duration (Some Js.NaN)))) w))
     = 4%nat.
Proof.
  intros w with_duration. split; [reflexivity|]. split; [simpl; tauto|].
  vm_compute. reflexivity.
Qed.


(** C10: whenever they return, [getUploadToken] and [uploadMedia] return
    the [Resp] field alone of the envelope that a successful attempt
    decoded, while [createLipSync], [getLastVideoFrame] and
    [getVideoDetails] return that envelope itself, with its code and
    message. *)
Theorem convenience_result_shapes {T} (config : PixverseConfig.t)
    (w w' : World T) :
  (forall v,
      getUploadToken config w = (Return v, w') ->
      exists k data, (1 <= k <= 4)%nat
                     /\ succeeds_with (nth_reply w k) data /\ v = Resp data)
  /\ (forall uploadRequest v,
      uploadMedia config uploadRequest w = (Return v, w') ->
      exists k data, (1 <= k <= 4)%nat
                     /\ succeeds_with (nth_reply w k) data /\ v = Resp data)
  /\ (forall r v,
      createLipSync config r w = (Return v, w') ->
      exists k, (1 <= k <= 4)%nat /\ succeeds_with (nth_reply w k) v)
  /\ (forall r v,
      getLastVideoFrame config r w = (Return v, w') ->
      exists k, (1 <= k <= 4)%nat /\ succeeds_with (nth_reply w k) v)
  /\ (forall r v,
      getVideoDetails config r w = (Return v, w') ->
      exists k, (1 <= k <= 4)%nat /\ succeeds_with (nth_reply w k) v).
Proof.
  repeat split.
  - intros v. unfold getUploadToken, mbind, M_bind.
    destruct (request _ _ _ _ w) as [[data|e] w1] eqn:E; [|discriminate].
    intros [= <- <-]. apply request_Return_inv in E as (k & Hk & Hs).
    by exists k, data.
  - intros uploadRequest v. unfold uploadMedia, mbind, M_bind.
    destruct (request _ _ _ _ w) as [[data|e] w1] eqn:E; [|discriminate].
    intros [= <- <-]. apply request_Return_inv in E as (k & Hk & Hs).
    by exists k, data.
  - intros r v. unfold createLipSync.
    destruct (_ || _); [discriminate|].
    destruct (Js.le_zero _); [discriminate|].
    apply request_Return_inv.
  - intros r v. unfold getLastVideoFrame.
    destruct (_ || _); [discriminate|].
    apply request_Return_inv.
  - intros r v. unfold getVideoDetails.
    destruct (Js.not_number _); [discriminate|].
    apply request_Return_inv.
Qed.

Lemma convenience_result_shapes_witness :
  let envelope := {| ErrCode := 0; ErrMsg := "Success"; Resp := "payload" |} in
  let w := Samples.world (fun _ => inr (Samples.response 200 "OK" "" (inr envelope))) in
  let r := {| VideoDetailsRequest.video_id := Some (Js.Finite 7);
              VideoDetailsRequest.platform := None |} in
  (getUploadToken Samples.config w).1 = Return "payload"
  /\ (exists k data, (1 <= k <= 4)%nat
        /\ succeeds_with (nth_reply w k) data /\ "payload" = Resp data)
  /\ (getVideoDetails Samples.config r w).1 = Return envelope
  /\ (exists k, (1 <= k <= 4)%nat /\ succeeds_with (nth_reply w k) envelope).
Proof.
  intros envelope w r.
  split; [reflexivity|]. split.
  - apply (proj1 (convenience_result_shapes Samples.config w
                    (getUploadToken Samples.config w).2) "payload").
    reflexivity.
  - split; [reflexivity|].
    apply (proj2 (proj2 (proj2 (proj2
             (convenience_result_shapes Samples.config w
                (getVideoDetails Samples.config r w).2)))) r envelope).
    reflexivity.
Defined.

(** ** The uploader *)

Lemma includes_In (s : string) (c : ascii) :
  Js.includes s c = true <-> In c (list_ascii_of_string s).
Proof.
  induction s as [|a s IH]; simpl; [split; [discriminate|tauto]|].
  destruct (Ascii.eqb a c) eqn:E.
  - apply Ascii.eqb_eq in E. tauto.
  - apply Ascii.eqb_neq in E. rewrite IH. split; [tauto|].
    intros [H | H]; [contradiction|exact H].
Qed.

Lemma includes_false_not_In (s : string) (c : ascii) :
  ~ In c (list_ascii_of_string s) -> Js.includes s c = false.
Proof.
  intros H. destruct (Js.includes s c) eqn:E; [|reflexivity].
  apply includes_In in E. contradiction.
Qed.

Lemma includes_app_sep (pre post : string) (c : ascii) :
  Js.includes (pre +:+ String c post) c = true.
Proof.
  induction pre as [|a pre IH].
  - simpl. by rewrite Ascii.eqb_refl.
  - rewrite append_cons. simpl. rewrite IH. by destruct (Ascii.eqb a c).
Qed.

Lemma split_cons_inv (s : string) (c : ascii) :
  exists piece rest, Js.split s c = piece :: rest.
Proof.
  destruct s as [|a s]; simpl; [by eexists _, _|].
  destruct (Ascii.eqb a c); [by eexists _, _|].
  destruct (Js.split s c); by eexists _, _.
Qed.

Lemma split_no_sep (s : string) (c : ascii) :
  Js.includes s c = false -> Js.split s c = [s].
Proof.
  induction s as [|a s IH]; simpl; [reflexivity|].
  destruct (Ascii.eqb a c); [discriminate|].
  intros H. by rewrite (IH H).
Qed.

(** Splitting around one occurrence of the separator. *)
Lemma split_app_sep (pre post : string) (c : ascii) :
  Js.split (pre +:+ String c post) c = Js.split pre c ++ Js.split post c.
Proof.
  induction pre as [|a pre IH].
  - simpl. by rewrite Ascii.eqb_refl.
  - rewrite append_cons. simpl. rewrite IH.
    destruct (Ascii.eqb a c); [reflexivity|].
    destruct (split_cons_inv pre c) as (piece & rest & ->). reflexivity.
Qed.

Lemma fileExt_without_dot (fileName : string) :
  ~ In "."%char (list_ascii_of_string fileName) -> fileExt fileName = "".
Proof.
  intros H. unfold fileExt. by rewrite (includes_false_not_In _ _ H).
Qed.

Lemma fileExt_after_last_dot (pre ext : string) :
  ~ In "."%char (list_ascii_of_string ext) ->
  fileExt (pre +:+ "." +:+ ext) = "." +:+ ext.
Proof.
  intros H. unfold fileExt.
  change ("." +:+ ext) with (String "." ext).
  rewrite includes_app_sep, split_app_sep.
  rewrite (split_no_sep ext _ (includes_false_not_In _ _ H)).
  unfold Js.pop. by rewrite last_snoc.
Qed.

Section Uploader.

Context {T : Type}.
Variables (file : File.t) (fileName : string) (uploadToken : UploadTokenResponse).

Implicit Types (w : World T).

Lemma uploadToOSS_unfold w :
  uploadToOSS file fileName uploadToken w
  = (upload_result file fileName (randomUUIDs w (drawn w)) (network w (fetched w)),
     uploaded file fileName uploadToken w).
Proof.
  unfold uploadToOSS, mbind, M_bind, try_catch, crypto_randomUUID,
    console_log, Date_toUTCString, fetch, emit, uploaded, upload_trace,
    upload_event, upload_result. simpl.
  rewrite <- !app_assoc. simpl.
  destruct (network w (fetched w)) as [e|r]; simpl; [reflexivity|].
  destruct (Response.ok r); simpl; [reflexivity|].
  unfold Response_text. by destruct (Response.text r).
Qed.

Lemma run_trace_uploadToOSS w :
  run_trace (uploadToOSS file fileName uploadToken) w
  = upload_trace file fileName uploadToken (randomUUIDs w (drawn w)) (clock w (read w)).
Proof.
  unfold run_trace. rewrite uploadToOSS_unfold. simpl. apply drop_app_length.
Qed.

End Uploader.

Lemma stringToSign_lines (method contentType date : string)
    (uploadToken : UploadTokenResponse) (path : string) :
  stringToSign method contentType date uploadToken path
  = Js.join Js.LF (signed_lines method contentType date uploadToken path).
Proof.
  unfold stringToSign, signed_lines, canonicalizedOSSHeaders,
    canonicalizedResource, Js.join.
  change (Js.sort _ (Js.Object_entries (ossHeaders date uploadToken)))
    with [ ("x-oss-date", date);
           ("x-oss-forbid-overwrite", "true");
           ("x-oss-security-token", Token uploadToken);
           ("x-oss-user-agent", "aliyun-sdk-js/6.22.0 Firefox 136.0 on OS X 10.15") ].
  simpl. rewrite !append_assoc. reflexivity.
Qed.

(** C1, as amended: the string that [uploadToOSS] signs is the method, an
    empty line, the content type, the date, then four header lines, for
    [x-oss-date], [x-oss-forbid-overwrite], [x-oss-security-token] and
    [x-oss-user-agent] in this order, then the resource path, joined by
    newlines; the PUT carries its HMAC under the access key. *)
Theorem signed_string_is_canonical {T} (file : File.t) (fileName : string)
    (uploadToken : UploadTokenResponse) (w : World T) :
  (forall method contentType date path,
      stringToSign method contentType date uploadToken path
      = Js.join Js.LF
          [ method;
            "";
            contentType;
            date;
            "x-oss-date:" +:+ date;
            "x-oss-forbid-overwrite:true";
            "x-oss-security-token:" +:+ Token uploadToken;
            "x-oss-user-agent:aliyun-sdk-js/6.22.0 Firefox 136.0 on OS X 10.15";
            "/pixverse-fe-upload/" +:+ path ])
  /\ exists url init,
      fetches (run_trace (uploadToOSS file fileName uploadToken) w) = [Fetch url init]
      /\ RequestInit.headers init ≫= (.!! "authorization")
         = Some ("OSS " +:+ Ak uploadToken +:+ ":" +:+
                 NodeCrypto.createHmac_sha1_base64 (Sk uploadToken)
                   (Js.join Js.LF
                      (signed_lines "PUT" (File.type file) (clock w (read w))
                         uploadToken
                         ("upload/" +:+ randomUUIDs w (drawn w) +:+ fileExt fileName)))).
Proof.
  split.
  - intros. apply stringToSign_lines.
  - rewrite run_trace_uploadToOSS. unfold upload_trace, upload_event.
    eexists _, _. split; [reflexivity|].
    unfold signature. rewrite stringToSign_lines. reflexivity.
Qed.

(** C1, as the specification words it, fails: the signed string has an
    [x-oss-date] line that the three-header block lacks. *)
Lemma stringToSign_has_date_line :
  stringToSign "PUT" "video/mp4" "Sun, 01 Nov 2026 00:00:00 GMT"
    Samples.uploadToken "upload/uuid-0.mp4"
  <> claimed_stringToSign "PUT" "video/mp4" "Sun, 01 Nov 2026 00:00:00 GMT"
       Samples.uploadToken "upload/uuid-0.mp4".
Proof. intros H. vm_compute in H. discriminate H. Qed.



(** C8: [uploadToOSS] on a 2xx reply returns a record whose name is the
    identifier it just drew followed by a suffix, whose path is [upload/]
    followed by that name, and whose type is 1 for the content type
    [video/mp4] and 2 for any other. The suffix is empty when the file
    name has no dot, and is the dot and the text after the last dot
    otherwise; the identifier is not handed out again. *)
Theorem upload_returns_record {T} (file : File.t) (fileName : string)
    (uploadToken : UploadTokenResponse) (w : World T) (r : Response.t T) :
  network w (fetched w) = inr r ->
  Response.ok r = true ->
  let run := uploadToOSS file fileName uploadToken in
  let uuid := randomUUIDs w (drawn w) in
  exists suffix result,
    (run w).1 = Return result
    /\ OSSUploadResponse.name result = uuid +:+ suffix
    /\ OSSUploadResponse.path result = "upload/" +:+ OSSUploadResponse.name result
    /\ (File.type file = "video/mp4" -> OSSUploadResponse.type result = 1)
    /\ (File.type file <> "video/mp4" -> OSSUploadResponse.type result = 2)
    /\ (~ In "."%char (list_ascii_of_string fileName) -> suffix = "")
    /\ (forall pre ext,
          fileName = pre +:+ "." +:+ ext ->
          ~ In "."%char (list_ascii_of_string ext) ->
          suffix = "." +:+ ext)
    /\ drawn (run w).2 = S (drawn w).
Proof.
  intros Hr Hok run uuid. subst run uuid.
  rewrite uploadToOSS_unfold. simpl. rewrite Hr. simpl. rewrite Hok.
  exists (fileExt fileName). eexists. split; [reflexivity|]. simpl.
  repeat split.
  - intros ->. reflexivity.
  - intros Hne. apply String.eqb_neq in Hne. by rewrite Hne.
  - apply fileExt_without_dot.
  - intros pre ext -> Hext. by apply fileExt_after_last_dot.
Qed.

Lemma upload_returns_record_witness :
  let w := Samples.world (fun _ => inr (Samples.response 200 "OK" ""
                                         (inl (SyntaxError "no json")))) in
  exists suffix result,
    (uploadToOSS Samples.clip "clip.MOV" Samples.uploadToken w).1 = Return result
    /\ OSSUploadResponse.name result = "uuid-0" +:+ suffix
    /\ OSSUploadResponse.path result = "upload/" +:+ OSSUploadResponse.name result
    /\ OSSUploadResponse.type result = 1
    /\ suffix = ".MOV".
Proof.
  intros w.
  destruct (upload_returns_record Samples.clip "clip.MOV" Samples.uploadToken w
              (Samples.response 200 "OK" "" (inl (SyntaxError "no json")))
              eq_refl eq_refl)
    as (suffix & result & Hres & Hname & Hpath & Hvideo & _ & _ & Hext & _).
  exists suffix, result. repeat split; try assumption.
  - apply Hvideo. reflexivity.
  - apply (Hext "clip" "MOV"); [reflexivity|].
    simpl. intros [H | [H | [H | []]]]; discriminate H.
Defined.

(** C9, as amended: two invocations of [uploadToOSS] that agree on the
    content type, the date read, the security token, the secret key and
    the generated object name (the method being PUT in both) produce the
    same signature. *)
Theorem signature_reproducible {T}
    (file1 file2 : File.t) (fileName1 fileName2 : string)
    (uploadToken1 uploadToken2 : UploadTokenResponse) (w1 w2 : World T) :
  File.type file1 = File.type file2 ->
  clock w1 (read w1) = clock w2 (read w2) ->
  Token uploadToken1 = Token uploadToken2 ->
  Sk uploadToken1 = Sk uploadToken2 ->
  randomUUIDs w1 (drawn w1) +:+ fileExt fileName1
    = randomUUIDs w2 (drawn w2) +:+ fileExt fileName2 ->
  exists sig,
    signatures_of (run_trace (uploadToOSS file1 fileName1 uploadToken1) w1) = [sig]
    /\ signatures_of (run_trace (uploadToOSS file2 fileName2 uploadToken2) w2) = [sig].
Proof.
  intros Htype Hdate Htoken Hsk Hname.
  rewrite !run_trace_uploadToOSS. unfold upload_trace. simpl.
  eexists. split; [reflexivity|].
  unfold signature. rewrite !stringToSign_lines. unfold signed_lines.
  by rewrite Htype, Hdate, Htoken, Hsk, Hname.
Qed.

Lemma signature_reproducible_witness :
  let w := Samples.world (fun _ => inl (TypeError "fetch failed")) in
  let other := {| File.type := "video/mp4"; File.content := "other bytes" |} in
  let token2 := {| Ak := "STS.other"; Sk := "secret"; Token := "sts-token" |} in
  exists sig,
    signatures_of (run_trace (uploadToOSS Samples.clip "a.mp4" Samples.uploadToken) w) = [sig]
    /\ signatures_of (run_trace (uploadToOSS other "b.mp4" token2) w) = [sig].
Proof.
  intros w other token2.
  apply signature_reproducible; reflexivity.
Defined.

(** C9, as the specification words it, fails: with the content type, the
    date, the security token and the secret key all equal, two invocations
    that draw different identifiers produce different signatures. *)
Lemma signature_varies_with_object_name :
  let reply := fun _ : nat => inl (TypeError "fetch failed") in
  let w1 := Samples.world reply in
  let w2 := {| network := reply; randomUUIDs := randomUUIDs w1; clock := clock w1;
               fetched := 0; drawn := 1; read := 0; trace := [] |} in
  let run := uploadToOSS Samples.clip "a.mp4" Samples.uploadToken in
  clock w1 (read w1) = clock w2 (read w2)
  /\ signatures_of (run_trace run w1) <> signatures_of (run_trace run w2).
Proof.
  intros reply w1 w2 run. split; [reflexivity|].
  intros H. vm_compute in H. discriminate H.
Qed.

(** ** Headers of the request executor *)

(** An entry of [this.config.headers] replaces the fixed entry of the same
    name. *)
Lemma request_headers_config_wins (config : PixverseConfig.t)
    (extra : gmap string string) (traceId key value : string) :
  PixverseConfig.headers config = Some extra ->
  extra !! key = Some value ->
  request_headers config traceId !! key = Some value.
Proof.
  intros Hc Hk. unfold request_headers. rewrite Hc. simpl.
  by apply lookup_union_Some_l.
Qed.

(** X16: the headers, credentials and mode of [options] never reach
    [fetch]: two calls whose options have the same method and body return
    the same and leave the same world. *)
Lemma request_ignores_option_headers {T} (config : PixverseConfig.t)
    (endpoint : string) (o1 o2 : RequestInit.t) (retries : nat) :
  RequestInit.method o1 = RequestInit.method o2 ->
  RequestInit.body o1 = RequestInit.body o2 ->
  forall w : World T,
    request config endpoint o1 retries w = request config endpoint o2 retries w.
Proof.
  intros Hm Hb.
  assert (Hw : forall w : World T,
             attempted config endpoint o1 w = attempted config endpoint o2 w).
  { intros w. unfold attempted, attempt_event, request_init. by rewrite Hm, Hb. }
  induction retries as [|retries' IH]; intros w;
    rewrite (request_unfold config endpoint o1 _ w),
      (request_unfold config endpoint o2 _ w), Hw.
  - reflexivity.
  - destruct (attempt_result _); [reflexivity|]. apply IH.
Qed.

(** C2: [createLipSync] passes [Refresh: credit] as a header of its call,
    yet the request that is sent has no [Refresh] header; it has the fixed
    entries, such as the token, and nothing from the call. *)
Theorem createLipSync_drops_Refresh :
  let envelope := {| ErrCode := 0; ErrMsg := "Success"; Resp := "video-1" |} in
  let w := Samples.world (fun _ => inr (Samples.response 200 "OK" "" (inr envelope))) in
  exists url init,
    run_trace (createLipSync Samples.config Samples.lipSync) w = [Fetch url init]
    /\ RequestInit.headers init ≫= (.!! "Refresh") = None
    /\ RequestInit.headers init ≫= (.!! "Token") = Some "tok".
Proof.
  intros envelope w. eexists _, _. split; [|split].
  - vm_compute. reflexivity.
  - vm_compute. reflexivity.
  - vm_compute. reflexivity.
Qed.

(** ** More on the request executor *)
Section ExecutorRuns.

Context {T : Type}.
Variable config : PixverseConfig.t.
Variables (endpoint : string) (options : RequestInit.t).

Implicit Types (w : World T) (reply : JsError + Response.t T).

Lemma attempt_result_Throw reply e :
  attempt_result reply = Throw e -> fails_with reply e.
Proof.
  destruct reply as [e0|r]; simpl.
  - intros [= ->]. constructor.
  - destruct (Response.ok r) eqn:Hok.
    + destruct (Response.json r) as [e0|d] eqn:Hj.
      * intros [= ->]. by apply fails_decoding.
      * destruct (ErrCode d =? 0) eqn:Hc; [discriminate|].
        intros [= <-]. apply fails_code; try done. by apply Z.eqb_neq.
    + intros [= <-]. by apply fails_status.
Qed.

Lemma nth_reply_retry w i :
  (1 <= i)%nat ->
  nth_reply (emit (SetTimeout 1000) (attempted config endpoint options w)) i
  = nth_reply w (S i).
Proof.
  intros Hi. unfold nth_reply. simpl. f_equal. lia.
Qed.

Lemma nth_reply_first w : nth_reply w 1 = network w (fetched w).
Proof. unfold nth_reply. simpl. by rewrite Nat.add_0_r. Qed.

(** Every call ends in one of two ways: some attempt within the budget is
    the first to succeed, or all of them fail. *)
Lemma request_cases retries : forall w,
  (exists k data,
      (1 <= k <= S retries)%nat
      /\ (forall i, (1 <= i < k)%nat -> exists e, fails_with (nth_reply w i) e)
      /\ succeeds_with (nth_reply w k) data
      /\ request config endpoint options retries w
         = (Return data, after_attempts config endpoint options w k))
  \/ (exists e,
      (forall i, (1 <= i <= S retries)%nat -> exists e', fails_with (nth_reply w i) e')
      /\ fails_with (nth_reply w (S retries)) e
      /\ request config endpoint options retries w
         = (Throw e, after_attempts config endpoint options w (S retries))).
Proof.
  induction retries as [|retries' IH]; intros w;
    rewrite request_unfold;
    destruct (attempt_result (network w (fetched w))) as [d|e] eqn:E.
  - left. exists 1%nat, d. split; [lia|]. split; [intros i Hi; lia|].
    rewrite nth_reply_first, after_attempts_one.
    split; [by apply attempt_result_Return|reflexivity].
  - right. exists e. apply attempt_result_Throw in E.
    rewrite nth_reply_first, after_attempts_one. split; [|done].
    intros i Hi. assert (i = 1%nat) as -> by lia.
    rewrite nth_reply_first. by exists e.
  - left. exists 1%nat, d. split; [lia|]. split; [intros i Hi; lia|].
    rewrite nth_reply_first, after_attempts_one.
    split; [by apply attempt_result_Return|reflexivity].
  - apply attempt_result_Throw in E. rewrite <- nth_reply_first in E.
    destruct (IH (emit (SetTimeout 1000) (attempted config endpoint options w)))
      as [(k & data & Hk & Hbefore & Hs & Hrun) | (e' & Hall & Hlast & Hrun)].
    + left. exists (S k), data. split; [lia|]. split; [|split].
      * intros i Hi. destruct i as [|[|i']]; [lia|by exists e|].
        rewrite <- nth_reply_retry by lia. apply Hbefore. lia.
      * rewrite <- nth_reply_retry by lia. exact Hs.
      * rewrite Hrun. destruct k as [|k']; [lia|].
        by rewrite after_attempts_retry.
    + right. exists e'. split; [|split].
      * intros i Hi. destruct i as [|[|i']]; [lia|by exists e|].
        rewrite <- nth_reply_retry by lia. apply Hall. lia.
      * rewrite <- nth_reply_retry by lia. exact Hlast.
      * rewrite Hrun. by rewrite after_attempts_retry.
Qed.

Lemma attempts_trace_length uuids k : forall d,
  length (attempts_trace config endpoint options uuids d k) = (2 * k - 1)%nat.
Proof.
  induction k as [|k' IH]; intros d; [reflexivity|].
  destruct k' as [|k'']; [reflexivity|].
  change (S (S (length (attempts_trace config endpoint options uuids (S d) (S k''))))
          = (2 * S (S k'') - 1)%nat).
  rewrite IH. lia.
Qed.

Lemma attempts_trace_In uuids k ev : forall d,
  In ev (attempts_trace config endpoint options uuids d k) ->
  ev = SetTimeout 1000
  \/ exists i, (i < k)%nat /\ ev = attempt_event config endpoint options uuids (d + i).
Proof.
  induction k as [|k' IH]; intros d; [intros []|].
  destruct k' as [|k''].
  - intros [<- | []]. right. exists 0%nat. split; [lia|]. by rewrite Nat.add_0_r.
  - intros [<- | [<- | H]].
    + right. exists 0%nat. split; [lia|]. by rewrite Nat.add_0_r.
    + by left.
    + apply IH in H as [-> | (i & Hi & ->)]; [by left|].
      right. exists (S i). split; [lia|]. f_equal. lia.
Qed.

Lemma request_world retries w :
  exists k, (1 <= k <= S retries)%nat
            /\ (request config endpoint options retries w).2
               = after_attempts config endpoint options w k.
Proof.
  destruct (request_cases retries w)
    as [(k & data & Hk & _ & _ & ->) | (e & _ & _ & ->)].
  - by exists k.
  - exists (S retries). split; [lia|reflexivity].
Qed.

Lemma attempt_event_executor_fetch uuids d :
  executor_fetch config (baseUrl +:+ endpoint) options
    (attempt_event config endpoint options uuids d).
Proof. by exists (uuids d). Qed.

Lemma run_trace_request_events retries w ev :
  In ev (run_trace (request config endpoint options retries) w) ->
  ev = SetTimeout 1000
  \/ executor_fetch config (baseUrl +:+ endpoint) options ev.
Proof.
  destruct (request_world retries w) as (k & _ & Hw).
  unfold run_trace. rewrite Hw. simpl. rewrite drop_app_length.
  intros H. apply attempts_trace_In in H as [-> | (i & _ & ->)]; [by left|].
  right. apply attempt_event_executor_fetch.
Qed.

End ExecutorRuns.

(** X1: what [request] returns or throws, for any budget. A returned
    envelope was decoded from the first attempt that got a 2xx reply with
    code 0, so its code is 0, and that attempt was the last fetch; an error
    is thrown only once all [retries + 1] attempts have failed, and it is
    the error of the last one. *)
Theorem request_outcome {T} (config : PixverseConfig.t) (endpoint : string)
    (options : RequestInit.t) (retries : nat) (w : World T) :
  let call := request config endpoint options retries in
  (forall data,
      (call w).1 = Return data ->
      ErrCode data = 0
      /\ exists k,
          (1 <= k <= S retries)%nat
          /\ (forall i, (1 <= i < k)%nat -> exists e, fails_with (nth_reply w i) e)
          /\ succeeds_with (nth_reply w k) data
          /\ length (fetches (run_trace call w)) = k)
  /\ (forall e,
      (call w).1 = Throw e ->
      (forall i, (1 <= i <= S retries)%nat -> exists e', fails_with (nth_reply w i) e')
      /\ fails_with (nth_reply w (S retries)) e
      /\ length (fetches (run_trace call w)) = S retries).
Proof.
  intros call. subst call.
  destruct (request_cases config endpoint options retries w)
    as [(k & d & Hk & Hbefore & Hs & Hrun) | (e0 & Hall & Hlast & Hrun)];
    rewrite (run_trace_after_attempts _ _ _ _ _ _ _ Hrun), Hrun; cbn [fst];
    (split; [intros data Hd | intros e He]); try discriminate.
  - injection Hd as <-. split.
    + by destruct Hs as (r & _ & _ & _ & Hc).
    + exists k. repeat split; try done; try lia. apply fetches_attempts_trace.
  - injection He as <-. repeat split; try done. apply fetches_attempts_trace.
Qed.

Lemma request_outcome_witness :
  let envelope := {| ErrCode := 0; ErrMsg := "Success"; Resp := "token" |} in
  let w := Samples.world (fun n =>
             if (n <? 5)%nat then inl (TypeError "fetch failed")
             else inr (Samples.response 200 "OK" "" (inr envelope))) in
  let call := request Samples.config "/creative_platform/getUploadToken"
                (POST None None) 5 in
  ErrCode envelope = 0
  /\ exists k,
      (1 <= k <= 6)%nat
      /\ (forall i, (1 <= i < k)%nat -> exists e, fails_with (nth_reply w i) e)
      /\ succeeds_with (nth_reply w k) envelope
      /\ length (fetches (run_trace call w)) = k.
Proof.
  intros envelope w call.
  apply (proj1 (request_outcome Samples.config
                  "/creative_platform/getUploadToken" (POST None None) 5 w)).
  vm_compute. reflexivity.
Defined.

(** X2: what a call to [request] does to the world, for any budget and
    whatever the replies. For some [k] from 1 to [retries + 1] its trace
    is that of [k] attempts in a row: a fetch, then a 1000 ms timer and a
    fetch [k - 1] times over, and nothing else. Nothing is logged, the
    clock is not read, and one random id is drawn per fetch. Every fetch
    goes to the base URL followed by the endpoint, with the method and
    body of [options], the executor's own headers, credentials [omit] and
    mode [cors]. *)
Theorem request_footprint {T} (config : PixverseConfig.t) (endpoint : string)
    (options : RequestInit.t) (retries : nat) (w : World T) :
  let call := request config endpoint options retries in
  exists k,
    (1 <= k <= S retries)%nat
    /\ run_trace call w
       = attempts_trace config endpoint options (randomUUIDs w) (drawn w) k
    /\ length (fetches (run_trace call w)) = k
    /\ length (run_trace call w) = (2 * k - 1)%nat
    /\ fetched (call w).2 = (fetched w + k)%nat
    /\ drawn (call w).2 = (drawn w + k)%nat
    /\ read (call w).2 = read w
    /\ (forall ev, In ev (run_trace call w) ->
          ev = SetTimeout 1000
          \/ executor_fetch config (baseUrl +:+ endpoint) options ev).
Proof.
  intros call. subst call.
  destruct (request_world config endpoint options retries w) as (k & Hk & Hw).
  exists k. split; [exact Hk|].
  assert (Htr : run_trace (request config endpoint options retries) w
                = attempts_trace config endpoint options (randomUUIDs w) (drawn w) k).
  { unfold run_trace. rewrite Hw. simpl. apply drop_app_length. }
  rewrite Htr, Hw. cbn [snd after_attempts fetched drawn read].
  split; [reflexivity|].
  split; [apply fetches_attempts_trace|].
  split; [apply attempts_trace_length|].
  repeat split.
  intros ev Hev. rewrite <- Htr in Hev.
  by apply run_trace_request_events in Hev.
Qed.

(** X3: the headers [request] sends. An entry of [this.config.headers]
    replaces the fixed entry of the same name; without such an entry the
    trace id sent is the one drawn for the attempt and the token sent is
    [this.config.token]; and the header objects of two attempts differ at
    most in [Ai-Trace-Id]. *)
Theorem request_headers_lookup (config : PixverseConfig.t) (traceId : string) :
  (forall extra key value,
      PixverseConfig.headers config = Some extra ->
      extra !! key = Some value ->
      request_headers config traceId !! key = Some value)
  /\ (default ∅ (PixverseConfig.headers config) !! "Ai-Trace-Id" = None ->
      request_headers config traceId !! "Ai-Trace-Id" = Some traceId)
  /\ (forall token,
      default ∅ (PixverseConfig.headers config) !! "Token" = None ->
      PixverseConfig.token config = Some token ->
      request_headers config traceId !! "Token" = Some token)
  /\ (forall traceId',
      delete "Ai-Trace-Id" (request_headers config traceId)
      = delete "Ai-Trace-Id" (request_headers config traceId')).
Proof.
  split; [|split; [|split]].
  - intros extra key value Hc Hk. unfold request_headers. rewrite Hc. simpl.
    by apply lookup_union_Some_l.
  - intros Hnone. unfold request_headers.
    rewrite (lookup_union_r _ _ _ Hnone). reflexivity.
  - intros token Hnone Htoken. unfold request_headers.
    rewrite (lookup_union_r _ _ _ Hnone), Htoken. reflexivity.
  - intros traceId'. unfold request_headers.
    rewrite !delete_union. f_equal.
Qed.

Lemma request_headers_lookup_witness :
  let config :=
    {| PixverseConfig.headers := Some {[ "User-Agent" := "curl/8.0" ]};
       PixverseConfig.token := Some "tok" |} in
  request_headers config "trace-1" !! "User-Agent" = Some "curl/8.0"
  /\ request_headers config "trace-1" !! "Ai-Trace-Id" = Some "trace-1"
  /\ request_headers config "trace-1" !! "Token" = Some "tok".
Proof.
  intros config.
  destruct (request_headers_lookup config "trace-1") as (Hwin & Hid & Htok & _).
  split; [|split].
  - apply (Hwin {[ "User-Agent" := "curl/8.0" ]}); reflexivity.
  - apply Hid. reflexivity.
  - apply Htok; reflexivity.
Defined.

Lemma request_ignores_option_headers_witness :
  let w := Samples.world (fun _ => inl (TypeError "fetch failed")) in
  let plain := POST None None in
  let decorated :=
    {| RequestInit.method := Some "POST";
       RequestInit.headers := Some {[ "Refresh" := "credit" ]};
       RequestInit.body := None;
       RequestInit.credentials := Some "include";
       RequestInit.mode := Some "no-cors" |} in
  request Samples.config "/creative_platform/getUploadToken" decorated 3 w
  = request Samples.config "/creative_platform/getUploadToken" plain 3 w.
Proof.
  intros w plain decorated.
  apply request_ignores_option_headers; reflexivity.
Defined.

(** ** More on the convenience methods *)

Lemma not_string_false (v : option string) :
  Js.not_string v = false <-> present v.
Proof.
  unfold present. destruct v as [s|]; simpl.
  - destruct (String.eqb s "") eqn:E.
    + apply String.eqb_eq in E. split; [discriminate|].
      intros (s' & [= <-] & Hne). contradiction.
    + apply String.eqb_neq in E. split; [|reflexivity].
      intros _. by exists s.
  - split; [discriminate|]. intros (s' & H & _). discriminate H.
Qed.

Lemma le_zero_false (v : option Js.number) :
  Js.le_zero v = false <-> ~ at_most_zero v.
Proof.
  destruct v as [[q| | |]|]; simpl; try (split; [tauto|reflexivity]).
  - rewrite <- Qle_bool_iff. destruct (Qle_bool q 0); split; congruence.
  - split; [discriminate|tauto].
Qed.

Lemma not_number_false (v : option Js.number) :
  Js.not_number v = false <-> nonzero_number v.
Proof.
  destruct v as [[q| | |]|]; simpl;
    try (split; [tauto|reflexivity]); try (split; [discriminate|tauto]).
  rewrite <- Qeq_bool_iff. destruct (Qeq_bool q 0); split; congruence.
Qed.

Lemma request_fetches_more {T} (config : PixverseConfig.t) (endpoint : string)
    (options : RequestInit.t) (retries : nat) (w : World T) :
  (fetched w < fetched (request config endpoint options retries w).2)%nat.
Proof.
  destruct (request_world config endpoint options retries w) as (k & Hk & ->).
  simpl. lia.
Qed.

Lemma run_trace_bind_ret {T A B} (m : M T A) (f : A -> B) (w : World T) :
  run_trace (x ← m; mret (f x)) w = run_trace m w.
Proof.
  unfold run_trace, mbind, M_bind. by destruct (m w) as [[a|e] w'].
Qed.

Lemma run_trace_throw {T A} (e : JsError) (w : World T) :
  run_trace (throw (A:=A) e) w = [].
Proof. unfold run_trace, throw. simpl. apply drop_all. Qed.

(** X4: the guards decide exactly whether the network is contacted.
    [createLipSync] fetches if and only if the video path and the text are
    there and not empty and the duration is not a number at most 0, so
    that a duration that is NaN or absent passes like one above 0;
    [getLastVideoFrame] if and only if the video path is there and not
    empty and the duration is not a number at most 0; [getVideoDetails] if
    and only if the video id is there and neither 0 nor NaN, a negative id
    included; [getUploadToken] and [uploadMedia] always do. *)
Theorem validation_exact {T} (config : PixverseConfig.t) (w : World T) :
  (forall r,
      (fetched w < fetched (createLipSync config r w).2)%nat
      <-> valid_LipSyncRequest r)
  /\ (forall r,
      (fetched w < fetched (getLastVideoFrame config r w).2)%nat
      <-> valid_LastVideoFrameRequest r)
  /\ (forall r,
      (fetched w < fetched (getVideoDetails config r w).2)%nat
      <-> valid_VideoDetailsRequest r)
  /\ (fetched w < fetched (getUploadToken config w).2)%nat
  /\ (forall uploadRequest,
      (fetched w < fetched (uploadMedia config uploadRequest w).2)%nat).
Proof.
  split; [|split; [|split; [|split]]].
  - intros r. unfold createLipSync, valid_LipSyncRequest.
    rewrite <- !not_string_false, <- le_zero_false.
    destruct (Js.not_string (LipSyncRequest.customer_video_path r));
      [simpl; split; [lia|intros (H & _); discriminate H]|].
    destruct (Js.not_string (LipSyncRequest.lip_sync_tts_content r));
      [simpl; split; [lia|intros (_ & H & _); discriminate H]|].
    destruct (Js.le_zero (LipSyncRequest.customer_video_duration r));
      [simpl; split; [lia|intros (_ & _ & H); discriminate H]|].
    cbn [orb]. split; [done|]. intros _. apply request_fetches_more.
  - intros r. unfold getLastVideoFrame, valid_LastVideoFrameRequest.
    rewrite <- not_string_false, <- le_zero_false.
    destruct (Js.not_string (LastVideoFrameRequest.video_path r));
      [simpl; split; [lia|intros (H & _); discriminate H]|].
    destruct (Js.le_zero (LastVideoFrameRequest.duration r));
      [simpl; split; [lia|intros (_ & H); discriminate H]|].
    cbn [orb]. split; [done|]. intros _. apply request_fetches_more.
  - intros r. unfold getVideoDetails, valid_VideoDetailsRequest.
    rewrite <- not_number_false.
    destruct (Js.not_number (VideoDetailsRequest.video_id r));
      [simpl; split; [lia|discriminate]|].
    split; [done|]. intros _. apply request_fetches_more.
  - unfold getUploadToken, mbind, M_bind.
    pose proof (request_fetches_more config "/creative_platform/getUploadToken"
                  (POST None None) retries_default w) as H.
    by destruct (request _ _ _ _ w) as [[d|e] w'].
  - intros uploadRequest. unfold uploadMedia, mbind, M_bind.
    pose proof (request_fetches_more config "/creative_platform/media/upload"
                  (POST (Some (JSON_stringify (OfMediaUploadRequest uploadRequest)))
                     None) retries_default w) as H.
    by destruct (request _ _ _ _ w) as [[d|e] w'].
Qed.

Lemma validation_exact_witness :
  let w := Samples.world (fun _ => inl (TypeError "fetch failed")) in
  let r := {| VideoDetailsRequest.video_id := Some (Js.Finite (-1));
              VideoDetailsRequest.platform := None |} in
  let f := {| LastVideoFrameRequest.video_path := Some "upload/a.mp4";
              LastVideoFrameRequest.duration := Some Js.NaN |} in
  (fetched w < fetched (createLipSync Samples.config Samples.lipSync w).2)%nat
  /\ (fetched w < fetched (getLastVideoFrame Samples.config f w).2)%nat
  /\ (fetched w < fetched (getVideoDetails Samples.config r w).2)%nat.
Proof.
  intros w r f.
  destruct (validation_exact Samples.config w) as (Hlip & Hframe & Hdet & _).
  split; [|split].
  - apply Hlip. repeat split.
    + by exists "upload/uuid-0.mp4".
    + by exists "hello".
    + simpl. intros H. vm_compute in H. by apply H.
  - apply Hframe. split; [by exists "upload/a.mp4"|]. simpl. tauto.
  - apply Hdet. simpl. intros H. vm_compute in H. discriminate H.
Defined.

(** X5: the messages of the guards, and their order. [createLipSync]
    reports missing fields when the path or the text is absent or empty,
    whatever the duration, and an invalid duration when both are there and
    the duration is a number at most 0; [getLastVideoFrame] has one
    message for both of its checks; [getVideoDetails] reports the missing
    id for an id that is absent, 0 or NaN. The world is left as it was. *)
Theorem validation_messages {T} (config : PixverseConfig.t) (w : World T) :
  (forall r,
      absent_or_empty (LipSyncRequest.customer_video_path r)
      \/ absent_or_empty (LipSyncRequest.lip_sync_tts_content r) ->
      createLipSync config r w
      = (Throw (Error
           "Missing required fields: customer_video_path and lip_sync_tts_content are required"),
         w))
  /\ (forall r,
      present (LipSyncRequest.customer_video_path r) ->
      present (LipSyncRequest.lip_sync_tts_content r) ->
      at_most_zero (LipSyncRequest.customer_video_duration r) ->
      createLipSync config r w
      = (Throw (Error "Invalid video duration: must be greater than 0"), w))
  /\ (forall r,
      absent_or_empty (LastVideoFrameRequest.video_path r)
      \/ at_most_zero (LastVideoFrameRequest.duration r) ->
      getLastVideoFrame config r w
      = (Throw (Error
           "Missing required fields: video_path and duration must be provided and duration must be greater than 0"),
         w))
  /\ (forall r,
      absent_or_zero (VideoDetailsRequest.video_id r)
      \/ VideoDetailsRequest.video_id r = Some Js.NaN ->
      getVideoDetails config r w
      = (Throw (Error "Missing required field: video_id must be provided"), w)).
Proof.
  split; [|split; [|split]].
  - intros r H. unfold createLipSync.
    destruct H as [H | H]; apply not_string_true in H; rewrite H;
      [reflexivity|].
    by destruct (Js.not_string (LipSyncRequest.customer_video_path r)).
  - intros r Hp Hc Hd. unfold createLipSync.
    apply not_string_false in Hp, Hc. rewrite Hp, Hc. cbn [orb].
    by rewrite (le_zero_true _ Hd).
  - intros r H. unfold getLastVideoFrame.
    destruct H as [H | H].
    + apply not_string_true in H. by rewrite H.
    + rewrite (le_zero_true _ H).
      by destruct (Js.not_string (LastVideoFrameRequest.video_path r)).
  - intros r H. unfold getVideoDetails.
    destruct H as [H | ->]; [|reflexivity].
    by rewrite (not_number_true _ H).
Qed.

Lemma validation_messages_witness :
  let w := Samples.world (fun _ => inl (TypeError "unreachable")) in
  let r := {| LipSyncRequest.customer_video_path := None;
              LipSyncRequest.lip_sync_tts_content := Some "hello";
              LipSyncRequest.lip_sync_tts_speaker_id := "1";
              LipSyncRequest.model := "v4";
              LipSyncRequest.customer_video_url := "";
              LipSyncRequest.customer_video_duration := Some (Js.Finite (-3));
              LipSyncRequest.customer_video_last_frame_url := "";
              LipSyncRequest.credit_change := 0 |} in
  createLipSync Samples.config r w
  = (Throw (Error
       "Missing required fields: customer_video_path and lip_sync_tts_content are required"),
     w).
Proof.
  intros w r.
  apply (proj1 (validation_messages Samples.config w) r).
  left. by left.
Defined.

(** X6: where the convenience methods send. Whatever the input and the
    replies, each event of a run is a 1000 ms timer or a POST to the one
    endpoint of the method, with the serialized argument as body (none for
    [getUploadToken]), the executor's headers, credentials [omit] and mode
    [cors]; retries repeat that same request. *)
Theorem convenience_fetches {T} (config : PixverseConfig.t) (w : World T) :
  only_posts_to config (getUploadToken config) w
    "/creative_platform/getUploadToken" None
  /\ (forall r,
      only_posts_to config (uploadMedia config r) w
        "/creative_platform/media/upload"
        (Some (JSON_stringify (OfMediaUploadRequest r))))
  /\ (forall r,
      only_posts_to config (createLipSync config r) w
        "/creative_platform/video/lip_sync"
        (Some (JSON_stringify (OfLipSyncRequest r))))
  /\ (forall r,
      only_posts_to config (getLastVideoFrame config r) w
        "/creative_platform/video/frame/last"
        (Some (JSON_stringify (OfLastVideoFrameRequest r))))
  /\ (forall r,
      only_posts_to config (getVideoDetails config r) w
        "/creative_platform/video/list/detail"
        (Some (JSON_stringify (OfVideoDetailsRequest r)))).
Proof.
  unfold only_posts_to.
  split; [|split; [|split; [|split]]].
  - intros ev. unfold getUploadToken. rewrite run_trace_bind_ret.
    apply run_trace_request_events.
  - intros r ev. unfold uploadMedia. rewrite run_trace_bind_ret.
    apply run_trace_request_events.
  - intros r ev. unfold createLipSync.
    destruct (_ || _); [by rewrite run_trace_throw|].
    destruct (Js.le_zero _); [by rewrite run_trace_throw|].
    intros H. apply run_trace_request_events in H as [-> | (t & ->)]; [by left|].
    right. by exists t.
  - intros r ev. unfold getLastVideoFrame.
    destruct (_ || _); [by rewrite run_trace_throw|].
    apply run_trace_request_events.
  - intros r ev. unfold getVideoDetails.
    destruct (Js.not_number _); [by rewrite run_trace_throw|].
    apply run_trace_request_events.
Qed.


(** ** More on the uploader *)

Lemma last_dot_decomposition (s : string) (c : ascii) :
  Js.includes s c = true ->
  exists pre ext, s = pre +:+ String c ext /\ Js.includes ext c = false.
Proof.
  induction s as [|a s IH]; simpl; [discriminate|].
  destruct (Js.includes s c) eqn:Hs.
  - intros _. destruct (IH eq_refl) as (pre & ext & -> & Hext).
    exists (String a pre), ext. by rewrite append_cons.
  - destruct (Ascii.eqb a c) eqn:E; [|discriminate].
    intros _. apply Ascii.eqb_eq in E as ->. by exists "", s.
Qed.

Lemma includes_false_In (s : string) (c : ascii) :
  Js.includes s c = false -> ~ In c (list_ascii_of_string s).
Proof. intros H Hin. apply includes_In in Hin. congruence. Qed.

(** X7: the extension that [uploadToOSS] keeps is a suffix of the file
    name. It is empty when the name has no dot; otherwise it is the last
    dot of the name with the text after it, which has no dot: of
    [a.tar.gz] only [.gz] is kept, of a name ending in a dot only the
    dot. *)
Theorem fileExt_suffix (fileName : string) :
  exists stem,
    fileName = stem +:+ fileExt fileName
    /\ ((fileExt fileName = "" /\ ~ In "."%char (list_ascii_of_string fileName))
        \/ exists ext,
            fileExt fileName = "." +:+ ext
            /\ ~ In "."%char (list_ascii_of_string ext)).
Proof.
  destruct (Js.includes fileName ".") eqn:E.
  - destruct (last_dot_decomposition _ _ E) as (pre & ext & -> & Hext).
    apply includes_false_In in Hext.
    change (String "." ext) with ("." +:+ ext).
    rewrite (fileExt_after_last_dot pre ext Hext).
    exists pre. split; [reflexivity|]. right. by exists ext.
  - apply includes_false_In in E.
    rewrite (fileExt_without_dot _ E).
    exists fileName. split.
    + clear E. induction fileName as [|a s IH]; [reflexivity|].
      rewrite append_cons. by rewrite <- IH.
    + by left.
Qed.

Lemma ok_status {T} (r : Response.t T) :
  Response.ok r = true <-> 200 <= Response.status r <= 299.
Proof. unfold Response.ok. rewrite andb_true_iff, !Z.leb_le. tauto. Qed.

(** X8: how an upload ends. [uploadToOSS] returns a record exactly when
    the reply to its PUT has a status from 200 to 299, whatever the body;
    when the transport rejects the PUT, or the body of a reply outside that
    range cannot be read, it throws that very error. *)
Theorem upload_outcome {T} (file : File.t) (fileName : string)
    (uploadToken : UploadTokenResponse) (w : World T) :
  let run := uploadToOSS file fileName uploadToken in
  ((exists result, (run w).1 = Return result)
   <-> exists r, network w (fetched w) = inr r
                 /\ 200 <= Response.status r <= 299)
  /\ (forall e, network w (fetched w) = inl e -> (run w).1 = Throw e)
  /\ (forall r e,
        network w (fetched w) = inr r ->
        ~ (200 <= Response.status r <= 299) ->
        Response.text r = inl e ->
        (run w).1 = Throw e).
Proof.
  intros run. subst run. rewrite uploadToOSS_unfold. cbn [fst].
  unfold upload_result. split; [|split].
  - destruct (network w (fetched w)) as [e|r].
    + split; [intros [? H]; discriminate H|intros (r & H & _); discriminate H].
    + destruct (Response.ok r) eqn:Hok.
      * split; [|by eexists]. intros _. exists r. by rewrite <- ok_status.
      * split.
        -- intros [res H]. destruct (Response.text r); discriminate H.
        -- intros (r' & [= <-] & Hst). apply ok_status in Hst. congruence.
  - by intros e ->.
  - intros r e -> Hst Ht.
    destruct (Response.ok r) eqn:Hok; [by apply ok_status in Hok|].
    by rewrite Ht.
Qed.

Lemma upload_outcome_witness :
  let w := Samples.world (fun _ => inr (Samples.response 204 "No Content"
                                         "<Error>ignored</Error>"
                                         (inl (SyntaxError "no json")))) in
  exists result,
    (uploadToOSS Samples.clip "a.mp4" Samples.uploadToken w).1 = Return result.
Proof.
  intros w.
  apply (proj1 (upload_outcome Samples.clip "a.mp4" Samples.uploadToken w)).
  eexists. split; [reflexivity|]. simpl. lia.
Defined.

(** X9: the headers that are signed are the [x-oss-] headers that are
    sent, with the same values: a key and value are canonicalized if and
    only if the PUT carries them under a name that starts with [x-oss-]. *)
Theorem signed_headers_are_sent (file : File.t) (date : string)
    (uploadToken : UploadTokenResponse) (sig key value : string) :
  In (key, value) (ossHeaders date uploadToken)
  <-> upload_headers file date uploadToken sig !! key = Some value
      /\ String.prefix "x-oss-" key = true.
Proof.
  split.
  - unfold ossHeaders.
    intros [H | [H | [H | [H | []]]]]; injection H as <- <-;
      split; reflexivity.
  - intros [Hl Hp]. unfold upload_headers in Hl.
    apply elem_of_list_to_map_2 in Hl.
    rewrite !elem_of_cons in Hl. unfold ossHeaders.
    destruct Hl as [H|[H|[H|[H|[H|[H|[H|[H|H]]]]]]]];
      try (injection H as -> ->); try discriminate Hp; simpl; try tauto.
    by apply elem_of_nil in H.
Qed.

Lemma signed_headers_are_sent_witness :
  In ("x-oss-security-token", "sts-token")
    (ossHeaders "Sun, 01 Nov 2026 00:00:00 GMT" Samples.uploadToken).
Proof.
  apply (proj2 (signed_headers_are_sent Samples.clip
                  "Sun, 01 Nov 2026 00:00:00 GMT" Samples.uploadToken "sig"
                  "x-oss-security-token" "sts-token")).
  split; reflexivity.
Defined.

(** X10: where the object goes. On a 2xx reply the path that
    [uploadToOSS] returns is the key of the PUT under the storage host, and
    the resource that was signed is that path under the bucket. *)
Theorem upload_path_is_object_key {T} (file : File.t) (fileName : string)
    (uploadToken : UploadTokenResponse) (w : World T) (r : Response.t T) :
  network w (fetched w) = inr r ->
  Response.ok r = true ->
  let run := uploadToOSS file fileName uploadToken in
  exists result init,
    (run w).1 = Return result
    /\ fetches (run_trace run w)
       = [Fetch ("https://pixverse-fe-upload.oss-accelerate.aliyuncs.com/"
                   +:+ OSSUploadResponse.path result) init]
    /\ RequestInit.headers init ≫= (.!! "authorization")
       = Some ("OSS " +:+ Ak uploadToken +:+ ":" +:+
               NodeCrypto.createHmac_sha1_base64 (Sk uploadToken)
                 (stringToSign "PUT" (File.type file) (clock w (read w))
                    uploadToken (OSSUploadResponse.path result)))
    /\ canonicalizedResource (OSSUploadResponse.path result)
       = "/pixverse-fe-upload/" +:+ OSSUploadResponse.path result.
Proof.
  intros Hr Hok run. subst run.
  rewrite run_trace_uploadToOSS, uploadToOSS_unfold. cbn [fst].
  unfold upload_result. rewrite Hr, Hok.
  eexists _, _. split; [reflexivity|].
  unfold upload_trace, upload_event. cbn [OSSUploadResponse.path].
  repeat split; reflexivity.
Qed.

Lemma upload_path_is_object_key_witness :
  let w := Samples.world (fun _ => inr (Samples.response 200 "OK" ""
                                         (inl (SyntaxError "no json")))) in
  let run := uploadToOSS Samples.clip "a.mp4" Samples.uploadToken in
  exists result init,
    (run w).1 = Return result
    /\ fetches (run_trace run w)
       = [Fetch ("https://pixverse-fe-upload.oss-accelerate.aliyuncs.com/"
                   +:+ OSSUploadResponse.path result) init].
Proof.
  intros w run.
  destruct (upload_path_is_object_key Samples.clip "a.mp4" Samples.uploadToken w
              (Samples.response 200 "OK" "" (inl (SyntaxError "no json")))
              eq_refl eq_refl)
    as (result & init & Hres & Hfetch & _).
  by exists result, init.
Defined.

(** ** The shape of the signature *)

Lemma be_unpack_length (n : nat) : forall x,
  length (NodeCrypto.be_unpack n x) = n.
Proof.
  induction n as [|n IH]; intros x; [reflexivity|].
  simpl. rewrite length_app, IH. simpl. lia.
Qed.

Lemma sha1_length (msg : list Z) : length (NodeCrypto.sha1 msg) = 20%nat.
Proof.
  unfold NodeCrypto.sha1.
  destruct (fold_left _ _ _) as [[[[h0 h1] h2] h3] h4].
  by rewrite !length_app, !be_unpack_length.
Qed.

Lemma base64_length_20 (bs : list Z) :
  length bs = 20%nat ->
  String.length (NodeCrypto.base64 bs) = 28%nat
  /\ String.get 27 (NodeCrypto.base64 bs) = Some "="%char.
Proof.
  intros H.
  do 21 (destruct bs as [|? bs]; try discriminate H).
  split; reflexivity.
Qed.

(** X11: whatever is signed and whatever the key, the signature that
    [uploadToOSS] logs and sends is 28 characters long and ends with [=]:
    the base64 text of a 20-byte digest. *)
Theorem signature_shape (method contentType date : string)
    (uploadToken : UploadTokenResponse) (path : string) :
  let sig := signature method contentType date uploadToken path in
  String.length sig = 28%nat /\ String.get 27 sig = Some "="%char.
Proof.
  intros sig. subst sig.
  unfold signature, NodeCrypto.createHmac_sha1_base64, NodeCrypto.hmac_sha1.
  apply base64_length_20, sha1_length.
Qed.

(** ** Retrying *)

(** X12: failures are not told apart. After an attempt that fails, be it
    a rejected fetch, a status outside 200-299, a body that does not
    decode or a code other than 0, [request] sets the 1000 ms timer and
    calls itself with one retry less, or throws that error when no retry
    is left. A status outside 200-299 fails with the status in the message
    even when the body would decode to an envelope with code 0. *)
Theorem request_retries_any_failure {T} (config : PixverseConfig.t)
    (endpoint : string) (options : RequestInit.t) (w : World T) :
  (forall retries e,
      fails_with (network w (fetched w)) e ->
      request config endpoint options retries w =
        match retries with
        | O => (Throw e, attempted config endpoint options w)
        | S retries' =>
            request config endpoint options retries'
              (emit (SetTimeout 1000) (attempted config endpoint options w))
        end)
  /\ (forall r,
      network w (fetched w) = inr r ->
      ~ (200 <= Response.status r <= 299) ->
      fails_with (network w (fetched w))
        (Error ("HTTP error! status: " +:+ Js.Number_toString (Response.status r)))).
Proof.
  split.
  - intros retries e He. rewrite request_unfold.
    rewrite (attempt_result_fails _ _ He). by destruct retries.
  - intros r -> Hst. apply fails_status.
    destruct (Response.ok r) eqn:Hok; [|reflexivity].
    by apply ok_status in Hok.
Qed.

Lemma request_retries_any_failure_witness :
  let envelope := {| ErrCode := 0; ErrMsg := "Success"; Resp := "token" |} in
  let w := Samples.world (fun _ => inr (Samples.response 404 "Not Found" ""
                                         (inr envelope))) in
  request Samples.config "/creative_platform/getUploadToken" (POST None None) 0 w
  = (Throw (Error ("HTTP error! status: " +:+ Js.Number_toString 404)),
     attempted Samples.config "/creative_platform/getUploadToken" (POST None None) w).
Proof.
  intros envelope w.
  destruct (request_retries_any_failure Samples.config
              "/creative_platform/getUploadToken" (POST None None) w)
    as [Hstep Hstatus].
  apply (Hstep 0%nat).
  apply (Hstatus (Samples.response 404 "Not Found" "" (inr envelope)));
    [reflexivity|].
  simpl. lia.
Defined.

(** X13: a larger budget does not change a call that returns: when
    [request] returns with [n] retries, it returns the same envelope and
    leaves the same world with any budget of at least [n]. *)
Theorem request_budget_monotone {T} (config : PixverseConfig.t)
    (endpoint : string) (options : RequestInit.t) (w : World T)
    (n m : nat) (data : PixverseResponse T) :
  (n <= m)%nat ->
  (request config endpoint options n w).1 = Return data ->
  request config endpoint options m w = request config endpoint options n w.
Proof.
  intros Hnm Hret.
  destruct (request_cases config endpoint options n w)
    as [(k & d & Hk & Hbefore & Hs & Hrun) | (e & _ & _ & Hrun)];
    rewrite Hrun in Hret; [|discriminate Hret].
  rewrite Hrun. destruct k as [|j]; [lia|].
  destruct (request_run config endpoint options m w j ltac:(lia)) as [Hok _].
  { intros i Hi. apply (Hbefore (S i)). lia. }
  exact (Hok d Hs).
Qed.

Lemma request_budget_monotone_witness :
  let envelope := {| ErrCode := 0; ErrMsg := "Success"; Resp := "token" |} in
  let w := Samples.world (fun n =>
             if (n <? 1)%nat then inl (TypeError "fetch failed")
             else inr (Samples.response 200 "OK" "" (inr envelope))) in
  request Samples.config "/creative_platform/getUploadToken" (POST None None) 7 w
  = request Samples.config "/creative_platform/getUploadToken" (POST None None) 1 w.
Proof.
  intros envelope w.
  apply (request_budget_monotone Samples.config
           "/creative_platform/getUploadToken" (POST None None) w 1 7 envelope).
  - lia.
  - vm_compute. reflexivity.
Defined.

(** X14: what an invocation of [uploadToOSS] does besides its PUT,
    whatever the reply. It draws one random id, reads the clock once, and
    writes two lines to the console: a fixed text, and the signature with
    the content type. The signature on the console is the one sent in the
    authorization header, after the access key. *)
Theorem upload_footprint {T} (file : File.t) (fileName : string)
    (uploadToken : UploadTokenResponse) (w : World T) :
  let run := uploadToOSS file fileName uploadToken in
  drawn (run w).2 = S (drawn w)
  /\ read (run w).2 = S (read w)
  /\ exists sig url init,
      List.filter is_console (run_trace run w)
      = [ ConsoleLog ["Uploading file to OSS..."];
          ConsoleLog ["Signature:"; sig; File.type file] ]
      /\ fetches (run_trace run w) = [Fetch url init]
      /\ RequestInit.headers init ≫= (.!! "authorization")
         = Some ("OSS " +:+ Ak uploadToken +:+ ":" +:+ sig).
Proof.
  intros run. subst run.
  rewrite run_trace_uploadToOSS, uploadToOSS_unfold.
  split; [reflexivity|]. split; [reflexivity|].
  unfold upload_trace, upload_event.
  eexists _, _, _. repeat split; reflexivity.
Qed.

(** ** Errors of the convenience methods *)

Lemma request_default_Throw {T} (config : PixverseConfig.t) (endpoint : string)
    (options : RequestInit.t) (w : World T) (e : JsError) :
  (request config endpoint options retries_default w).1 = Throw e ->
  exhausted w e.
Proof.
  unfold retries_default, exhausted.
  destruct (request_cases config endpoint options 3 w)
    as [(k & d & _ & _ & _ & ->) | (e0 & Hall & Hlast & ->)]; [discriminate|].
  by intros [= <-].
Qed.

(** X15: no error is swallowed or replaced on the way out. An error
    thrown by [getUploadToken] or [uploadMedia] is the error of the fourth
    attempt, after four failed attempts; an error thrown by
    [createLipSync], [getLastVideoFrame] or [getVideoDetails] is either
    that, for an input that passes the guard, or, for an input that does
    not, one of the guard's own errors, with the world left as it was. *)
Theorem convenience_errors {T} (config : PixverseConfig.t) (w : World T)
    (e : JsError) :
  ((getUploadToken config w).1 = Throw e -> exhausted w e)
  /\ (forall r, (uploadMedia config r w).1 = Throw e -> exhausted w e)
  /\ (forall r,
      (createLipSync config r w).1 = Throw e ->
      (valid_LipSyncRequest r /\ exhausted w e)
      \/ (~ valid_LipSyncRequest r
          /\ (createLipSync config r w).2 = w
          /\ (e = Error
                "Missing required fields: customer_video_path and lip_sync_tts_content are required"
              \/ e = Error "Invalid video duration: must be greater than 0")))
  /\ (forall r,
      (getLastVideoFrame config r w).1 = Throw e ->
      (valid_LastVideoFrameRequest r /\ exhausted w e)
      \/ (~ valid_LastVideoFrameRequest r
          /\ (getLastVideoFrame config r w).2 = w
          /\ e = Error
               "Missing required fields: video_path and duration must be provided and duration must be greater than 0"))
  /\ (forall r,
      (getVideoDetails config r w).1 = Throw e ->
      (valid_VideoDetailsRequest r /\ exhausted w e)
      \/ (~ valid_VideoDetailsRequest r
          /\ (getVideoDetails config r w).2 = w
          /\ e = Error "Missing required field: video_id must be provided")).
Proof.
  split; [|split; [|split; [|split]]].
  - unfold getUploadToken, mbind, M_bind.
    destruct (request _ _ _ _ w) as [[d|e0] w'] eqn:E; [discriminate|].
    intros [= <-]. eapply request_default_Throw. by rewrite E.
  - intros r. unfold uploadMedia, mbind, M_bind.
    destruct (request _ _ _ _ w) as [[d|e0] w'] eqn:E; [discriminate|].
    intros [= <-]. eapply request_default_Throw. by rewrite E.
  - intros r. unfold createLipSync, valid_LipSyncRequest.
    rewrite <- !not_string_false, <- le_zero_false.
    destruct (Js.not_string (LipSyncRequest.customer_video_path r));
      [intros [= <-]; right; split; [intros (H & _); discriminate H|];
       split; [reflexivity|by left]|].
    destruct (Js.not_string (LipSyncRequest.lip_sync_tts_content r));
      [intros [= <-]; right; split; [intros (_ & H & _); discriminate H|];
       split; [reflexivity|by left]|].
    destruct (Js.le_zero (LipSyncRequest.customer_video_duration r));
      [intros [= <-]; right; split; [intros (_ & _ & H); discriminate H|];
       split; [reflexivity|by right]|].
    cbn [orb]. intros H. left. split; [done|].
    by apply request_default_Throw in H.
  - intros r. unfold getLastVideoFrame, valid_LastVideoFrameRequest.
    rewrite <- not_string_false, <- le_zero_false.
    destruct (Js.not_string (LastVideoFrameRequest.video_path r));
      [intros [= <-]; right; split; [intros (H & _); discriminate H|];
       split; reflexivity|].
    destruct (Js.le_zero (LastVideoFrameRequest.duration r));
      [intros [= <-]; right; split; [intros (_ & H); discriminate H|];
       split; reflexivity|].
    cbn [orb]. intros H. left. split; [done|].
    by apply request_default_Throw in H.
  - intros r. unfold getVideoDetails, valid_VideoDetailsRequest.
    rewrite <- not_number_false.
    destruct (Js.not_number (VideoDetailsRequest.video_id r));
      [intros [= <-]; right; split; [discriminate|]; split; reflexivity|].
    intros H. left. split; [done|].
    by apply request_default_Throw in H.
Qed.

Lemma convenience_errors_witness :
  let w := Samples.world (fun _ => inl (TypeError "fetch failed")) in
  exhausted w (TypeError "fetch failed").
Proof.
  intros w.
  apply (proj1 (convenience_errors Samples.config w (TypeError "fetch failed"))).
  vm_compute. reflexivity.
Defined.
